(** * Mergington High School activities API: roster subsystem

    A shallow embedding of [src/app.py]: the in-memory activity registry,
    the two mutating request handlers [signup_for_activity] and
    [unregister_from_activity], the e-mail settings and [send_email].

    Python objects are modelled as follows.
    - [str] is [string]; f-strings are concatenations with [+:+].
    - [int] is [Z].
    - the module-level dict [activities] is a [gmap string Activity];
      each inner dict is a record, a key that the code reads with
      [.get(key, default)] being an [option] field.
    - a handler that raises [HTTPException] yields [Raise]; the registry it
      leaves behind and the background tasks it has queued are returned
      next to the outcome.
    - [os.getenv] reads a [gmap string string].
    - what the standard library does ([EmailMessage], [smtplib]) is a
      parameter: which calls raise is left open. *)

From stdpp Require Import gmap strings list fin_maps.
From Stdlib Require Import ZArith Lia Ascii.

Local Open Scope string_scope.
Local Open Scope list_scope.
Local Open Scope Z_scope.

(** ** Data model *)

(** One entry of the [activities] dict. *)
Record Activity := mkActivity {
  description : string;
  schedule : option string;
  location : option string;
  max_participants : Z;
  participants : list string
}.

(** [activity["participants"]] is the only field the handlers mutate. *)
Definition set_participants (a : Activity) (ps : list string) : Activity :=
  {| description := description a;
     schedule := schedule a;
     location := location a;
     max_participants := max_participants a;
     participants := ps |}.

(** The keyword arguments of one [background_tasks.add_task(send_email, ...)]. *)
Record Task := mkTask {
  subject : string;
  body : string;
  to_email : string
}.

Record HTTPException := mkHTTPException {
  status_code : Z;
  detail : string
}.

(** What a handler call ends with: a raised [HTTPException], another
    Python exception (named by its class), or the returned
    [{"message": ...}] body. *)
Inductive Outcome :=
| Raise (e : HTTPException)
| Uncaught (exception_class : string)
| Return (message : string).

(** ** The seed registry (lines 27-82) *)

Definition seed_activity (d s : string) (m : Z) (p1 p2 : string) : Activity :=
  {| description := d; schedule := Some s; location := None;
     max_participants := m; participants := [p1; p2] |}.

Definition activities : gmap string Activity :=
  <["Chess Club" := seed_activity
      "Learn strategies and compete in chess tournaments"
      "Fridays, 3:30 PM - 5:00 PM" 12
      "michael@mergington.edu" "daniel@mergington.edu"]>
  (<["Programming Class" := seed_activity
      "Learn programming fundamentals and build software projects"
      "Tuesdays and Thursdays, 3:30 PM - 4:30 PM" 20
      "emma@mergington.edu" "sophia@mergington.edu"]>
  (<["Gym Class" := seed_activity
      "Physical education and sports activities"
      "Mondays, Wednesdays, Fridays, 2:00 PM - 3:00 PM" 30
      "john@mergington.edu" "olivia@mergington.edu"]>
  (<["Soccer Team" := seed_activity
      "Join the school soccer team and compete in matches"
      "Tuesdays and Thursdays, 4:00 PM - 5:30 PM" 22
      "liam@mergington.edu" "noah@mergington.edu"]>
  (<["Basketball Team" := seed_activity
      "Practice and play basketball with the school team"
      "Wednesdays and Fridays, 3:30 PM - 5:00 PM" 15
      "ava@mergington.edu" "mia@mergington.edu"]>
  (<["Art Club" := seed_activity
      "Explore your creativity through painting and drawing"
      "Thursdays, 3:30 PM - 5:00 PM" 15
      "amelia@mergington.edu" "harper@mergington.edu"]>
  (<["Drama Club" := seed_activity
      "Act, direct, and produce plays and performances"
      "Mondays and Wednesdays, 4:00 PM - 5:30 PM" 20
      "ella@mergington.edu" "scarlett@mergington.edu"]>
  (<["Math Club" := seed_activity
      "Solve challenging problems and participate in math competitions"
      "Tuesdays, 3:30 PM - 4:30 PM" 10
      "james@mergington.edu" "benjamin@mergington.edu"]>
  (<["Debate Team" := seed_activity
      "Develop public speaking and argumentation skills"
      "Fridays, 4:00 PM - 5:30 PM" 12
      "charlotte@mergington.edu" "henry@mergington.edu"]>
  ∅)))))))).

(** ** Python list operations used by the handlers *)

(** [x in l] on a list of strings: exact string comparison. *)
Definition py_in (x : string) (l : list string) : bool :=
  existsb (String.eqb x) l.

(** [l.append(x)]. *)
Definition py_append (l : list string) (x : string) : list string :=
  l ++ [x].

(** [l.remove(x)]: drops the first element equal to [x]; [None] stands for
    the [ValueError] raised when there is none. *)
Fixpoint py_remove (x : string) (l : list string) : option (list string) :=
  match l with
  | [] => None
  | y :: l' =>
      if String.eqb y x then Some l'
      else match py_remove x l' with
           | Some r => Some (y :: r)
           | None => None
           end
  end.

(** ** E-mail bodies (lines 150-170) *)

Definition nl : string := String (Ascii.ascii_of_nat 10) EmptyString.

(** [d.get(key, default)]. *)
Definition dict_get (field : option string) (default : string) : string :=
  match field with
  | Some v => v
  | None => default
  end.

Definition _registration_email_body
    (activity_name : string) (activity : Activity) (student_email : string) : string :=
  "Registration Confirmation" +:+ nl +:+
  "---------------------------" +:+ nl +:+
  "Student: " +:+ student_email +:+ nl +:+
  "Activity: " +:+ activity_name +:+ nl +:+
  "Schedule: " +:+ dict_get (schedule activity) "TBD" +:+ nl +:+
  "Location: " +:+ dict_get (location activity) "On campus" +:+ nl +:+ nl +:+
  "You are successfully registered. If you need to cancel, use the unregister option on the site.".

Definition _cancellation_email_body
    (activity_name : string) (activity : Activity) (student_email : string) : string :=
  "Cancellation Confirmation" +:+ nl +:+
  "---------------------------" +:+ nl +:+
  "Student: " +:+ student_email +:+ nl +:+
  "Activity: " +:+ activity_name +:+ nl +:+
  "Schedule: " +:+ dict_get (schedule activity) "TBD" +:+ nl +:+ nl +:+
  "Your registration has been cancelled. You can re-register anytime if spots are available.".

(** ** Request handlers (lines 173-230) *)

(** The result of one handler call: its outcome, the registry afterwards
    and the tasks added to the request's [background_tasks]. *)
Record Response := mkResponse {
  outcome : Outcome;
  registry : gmap string Activity;
  tasks : list Task
}.

Definition signup_for_activity
    (activity_name email : string) (acts : gmap string Activity) : Response :=
  match acts !! activity_name with
  | None =>
      mkResponse (Raise (mkHTTPException 404 "Activity not found")) acts []
  | Some activity =>
      if py_in email (participants activity) then
        mkResponse (Raise (mkHTTPException 400 "Student is already signed up")) acts []
      else
        let activity' :=
          set_participants activity (py_append (participants activity) email) in
        mkResponse
          (Return ("Signed up " +:+ email +:+ " for " +:+ activity_name))
          (<[activity_name := activity']> acts)
          [mkTask ("Successfully Registered for " +:+ activity_name)
                  (_registration_email_body activity_name activity' email)
                  email]
  end.

Definition unregister_from_activity
    (activity_name email : string) (acts : gmap string Activity) : Response :=
  match acts !! activity_name with
  | None =>
      mkResponse (Raise (mkHTTPException 404 "Activity not found")) acts []
  | Some activity =>
      if negb (py_in email (participants activity)) then
        mkResponse
          (Raise (mkHTTPException 400 "Student is not signed up for this activity"))
          acts []
      else
        match py_remove email (participants activity) with
        | None =>
            (* list.remove raises when the element is missing *)
            mkResponse (Uncaught "ValueError") acts []
        | Some ps =>
            let activity' := set_participants activity ps in
            mkResponse
              (Return ("Unregistered " +:+ email +:+ " from " +:+ activity_name))
              (<[activity_name := activity']> acts)
              [mkTask ("Activity Registration Cancelled - " +:+ activity_name)
                      (_cancellation_email_body activity_name activity' email)
                      email]
        end
  end.

(** ** Request sequences

    The registry is module-level state: each request sees what the
    previous ones left. *)

Inductive Request :=
| Signup (activity_name email : string)
| Unregister (activity_name email : string).

Definition handle (r : Request) (acts : gmap string Activity) : Response :=
  match r with
  | Signup n e => signup_for_activity n e acts
  | Unregister n e => unregister_from_activity n e acts
  end.

(** The registry after serving the requests in order. *)
Fixpoint serve (rs : list Request) (acts : gmap string Activity) : gmap string Activity :=
  match rs with
  | [] => acts
  | r :: rs' => serve rs' (registry (handle r acts))
  end.

(** The outcomes of the requests, in order. *)
Fixpoint outcomes (rs : list Request) (acts : gmap string Activity) : list Outcome :=
  match rs with
  | [] => []
  | r :: rs' => outcome (handle r acts) :: outcomes rs' (registry (handle r acts))
  end.

(** The capacity bound of the data model, as a property of a registry. *)
Definition within_capacity (acts : gmap string Activity) : Prop :=
  ∀ name a, acts !! name = Some a →
    Z.of_nat (length (participants a)) ≤ max_participants a.

(** The same activity with another capacity. *)
Definition with_max_participants (m : Z) (a : Activity) : Activity :=
  {| description := description a;
     schedule := schedule a;
     location := location a;
     max_participants := m;
     participants := participants a |}.



(** ** Interleaved signup calls

    The three statements of [signup_for_activity] that touch the shared
    registry, each one an atomic step of a call: the existence test
    (line 177), the membership test (line 184) and the append (line 191,
    with the task registration and the return that follow it, which touch
    only the call's own objects). The local [activity] is a reference to the
    entry under [activity_name]; no handler rebinds or deletes an entry, so a
    step reads it through the name. *)

Inductive SignupPc :=
| AtExistsCheck
| AtMemberCheck
| AtAppend
| Finished (o : Outcome).

Record SignupCall := mkSignupCall {
  call_activity : string;
  call_email : string;
  call_pc : SignupPc;
  call_tasks : list Task
}.

Definition new_call (activity_name email : string) : SignupCall :=
  mkSignupCall activity_name email AtExistsCheck [].

Definition at_pc (c : SignupCall) (pc : SignupPc) : SignupCall :=
  mkSignupCall (call_activity c) (call_email c) pc (call_tasks c).

Definition signup_step (c : SignupCall) (acts : gmap string Activity)
  : SignupCall * gmap string Activity :=
  let activity_name := call_activity c in
  let email := call_email c in
  match call_pc c with
  | AtExistsCheck =>
      match acts !! activity_name with
      | None =>
          (at_pc c (Finished (Raise (mkHTTPException 404 "Activity not found"))), acts)
      | Some _ => (at_pc c AtMemberCheck, acts)
      end
  | AtMemberCheck =>
      match acts !! activity_name with
      | None => (at_pc c (Finished (Uncaught "KeyError")), acts)
      | Some activity =>
          if py_in email (participants activity) then
            (at_pc c (Finished (Raise (mkHTTPException 400 "Student is already signed up"))),
             acts)
          else (at_pc c AtAppend, acts)
      end
  | AtAppend =>
      match acts !! activity_name with
      | None => (at_pc c (Finished (Uncaught "KeyError")), acts)
      | Some activity =>
          let activity' :=
            set_participants activity (py_append (participants activity) email) in
          (mkSignupCall activity_name email
             (Finished (Return ("Signed up " +:+ email +:+ " for " +:+ activity_name)))
             [mkTask ("Successfully Registered for " +:+ activity_name)
                     (_registration_email_body activity_name activity' email)
                     email],
           <[activity_name := activity']> acts)
      end
  | Finished _ => (c, acts)
  end.

(** The calls in flight and the registry they share. *)
Record World := mkWorld {
  calls : list SignupCall;
  shared : gmap string Activity
}.

(** Call number [i] takes its next step; an index out of range is skipped. *)
Definition step_call (i : nat) (w : World) : World :=
  match calls w !! i with
  | None => w
  | Some c =>
      let '(c', acts') := signup_step c (shared w) in
      mkWorld (<[i := c']> (calls w)) acts'
  end.

(** A schedule names the call that moves at each instant. *)
Fixpoint run_schedule (sched : list nat) (w : World) : World :=
  match sched with
  | [] => w
  | i :: sched' => run_schedule sched' (step_call i w)
  end.

Definition is_finished (c : SignupCall) : bool :=
  match call_pc c with
  | Finished _ => true
  | _ => false
  end.

Definition succeeded (c : SignupCall) : bool :=
  match call_pc c with
  | Finished (Return _) => true
  | _ => false
  end.

(** Steps taken so far by a call that has met no error. *)
Definition progress (c : SignupCall) : nat :=
  match call_pc c with
  | AtExistsCheck => 0
  | AtMemberCheck => 1
  | AtAppend => 2
  | Finished _ => 3
  end%nat.

(** How often call [i] is scheduled. *)
Definition times_scheduled (i : nat) (sched : list nat) : nat :=
  length (filter (λ j, j = i) sched).

(** The schedule that runs the [n] calls one after the other. *)
Definition sequential (n : nat) : list nat :=
  flat_map (λ i, [i; i; i]) (seq 0 n).

(** ** Environment settings (lines 95-124)

    [int] and [str.lower] are modelled on ASCII strings, where the model is
    exact; Python also accepts Unicode digits and spaces and lowers non-ASCII
    letters. A property that depends on a value parsed or lowered from the
    environment assumes [ascii_env]. *)

Definition is_space (c : ascii) : bool :=
  let n := nat_of_ascii c in
  ((9 <=? n) && (n <=? 13) || (n =? 32))%nat.

Definition digit_value (c : ascii) : option Z :=
  let n := nat_of_ascii c in
  if ((48 <=? n) && (n <=? 57))%nat then Some (Z.of_nat (n - 48)) else None.

Fixpoint lstrip (s : string) : string :=
  match s with
  | String c s' => if is_space c then lstrip s' else s
  | EmptyString => s
  end.

Fixpoint all_space (s : string) : bool :=
  match s with
  | String c s' => is_space c && all_space s'
  | EmptyString => true
  end.

(** The rest of a numeral after a digit: more digits, single underscores
    between digits, then only white space. Returns the value and the number
    of digits read. *)
Fixpoint digits_tail (acc : Z) (n : nat) (s : string) : option (Z * nat) :=
  match s with
  | EmptyString => Some (acc, n)
  | String c s' =>
      match digit_value c with
      | Some d => digits_tail (10 * acc + d) (S n) s'
      | None =>
          if Ascii.eqb c "_"%char then
            match s' with
            | String c' s'' =>
                match digit_value c' with
                | Some d => digits_tail (10 * acc + d) (S n) s''
                | None => None
                end
            | EmptyString => None
            end
          else if all_space s then Some (acc, n) else None
      end
  end.

Definition digits (s : string) : option (Z * nat) :=
  match s with
  | String c s' =>
      match digit_value c with
      | Some d => digits_tail d 1 s'
      | None => None
      end
  | EmptyString => None
  end.

(** [int(s)] for an ASCII string [s], base 10; [None] stands for
    [ValueError]. 4300 is the interpreter's default limit on the digits of a
    numeral. *)
Definition py_int (s : string) : option Z :=
  let s1 := lstrip s in
  let '(sign, s2) :=
    match s1 with
    | String "+"%char r => (1, r)
    | String "-"%char r => (-1, r)
    | _ => (1, s1)
    end in
  match digits s2 with
  | Some (v, n) => if (4300 <? n)%nat then None else Some (sign * v)
  | None => None
  end.

Definition lower_ascii (c : ascii) : ascii :=
  let n := nat_of_ascii c in
  if ((65 <=? n) && (n <=? 90))%nat then ascii_of_nat (n + 32) else c.

(** [s.lower()]. *)
Fixpoint py_lower (s : string) : string :=
  match s with
  | String c s' => String (lower_ascii c) (py_lower s')
  | EmptyString => EmptyString
  end.

(** [os.getenv(name, default)] with a string default. *)
Definition getenv_default (env : gmap string string) (name default : string) : string :=
  match env !! name with
  | Some v => v
  | None => default
  end.

(** [int(os.getenv(name, default))] with an integer default: [int] is the
    identity on the default. *)
Definition _get_int_env (env : gmap string string) (name : string) (default : Z) : Z :=
  match env !! name with
  | None => default
  | Some v =>
      match py_int v with
      | Some z => z
      | None => default
      end
  end.

Record EmailSettings := mkEmailSettings {
  host : option string;
  port : Z;
  username : option string;
  password : option string;
  from_email : option string;
  from_name : string;
  use_tls : bool
}.

(** [EmailSettings.__init__], reading the environment [env]. *)
Definition EmailSettings_init (env : gmap string string) : EmailSettings :=
  {| host := env !! "SMTP_HOST";
     port := _get_int_env env "SMTP_PORT" 587;
     username := env !! "SMTP_USERNAME";
     password := env !! "SMTP_PASSWORD";
     from_email := env !! "FROM_EMAIL";
     from_name := getenv_default env "FROM_NAME" "Mergington High School Activities";
     use_tls :=
       negb (String.eqb (py_lower (getenv_default env "SMTP_USE_TLS" "true")) "false") |}.

(** Truth value of a string: empty is false. *)
Definition truthy (s : string) : bool :=
  negb (String.eqb s "").

(** Truth value of [os.getenv(name)]: [None] and the empty string are false. *)
Definition truthy_opt (o : option string) : bool :=
  match o with
  | Some s => truthy s
  | None => false
  end.

Definition sender (s : EmailSettings) : string :=
  match from_email s with
  | Some fe =>
      if truthy (from_name s) && truthy fe
      then from_name s +:+ " <" +:+ fe +:+ ">"
      else fe
  | None => ""
  end.

(** [bool(self.host and self.port and self.from_email)]. *)
Definition is_configured (s : EmailSettings) : bool :=
  truthy_opt (host s) && negb (port s =? 0) && truthy_opt (from_email s).

(** ** send_email (lines 127-147) *)

Record EmailMessage := mkEmailMessage {
  msg_subject : string;
  msg_from : string;
  msg_to : string;
  msg_content : string
}.

Inductive SmtpCommand :=
| Connect (h : string) (p : Z)
| StartTLS
| Login (user pass : string)
| SendMessage (m : EmailMessage)
| Quit.

(** What [send_email] does to the outside world: a line printed, an SMTP
    command issued, or an exception that leaves [send_email] (named by its
    class). *)
Inductive Effect :=
| Print (line : string)
| Smtp (c : SmtpCommand)
| Propagate (exception_class : string).

(** The standard library's [EmailMessage] is outside the program.
    [compose_error subject from to body] is the class of the exception that
    building the message raises (the three header assignments and
    [set_content], lines 133-137), if any: a header value with an embedded
    line break and some malformed addresses are refused there. *)
Class MailLibrary := {
  compose_error : string → string → string → string → option string
}.

(** The mail transport is outside the program too: [transport c] is the text
    of the exception that command [c] raises and that is not swallowed by
    [smtplib], if any. The commands run until one raises. *)
Fixpoint smtp_session (transport : SmtpCommand → option string) (cmds : list SmtpCommand)
  : list Effect * option string :=
  match cmds with
  | [] => ([], None)
  | c :: cs =>
      match transport c with
      | Some exc => ([Smtp c], Some exc)
      | None =>
          let '(es, r) := smtp_session transport cs in
          (Smtp c :: es, r)
      end
  end.

(** The body of the [with] block (lines 141-145), in order. *)
Definition smtp_plan (email_settings : EmailSettings) (message : EmailMessage)
  : list SmtpCommand :=
  (if use_tls email_settings then [StartTLS] else []) ++
  (match username email_settings, password email_settings with
   | Some u, Some p => if truthy u && truthy p then [Login u p] else []
   | _, _ => []
   end) ++
  [SendMessage message].

(** The message is built before the [try], so an exception raised there
    leaves [send_email]. [smtplib.SMTP(host, port)] connects; if that raises,
    the [with] block is not entered. Otherwise leaving the block, normally or
    by an exception, issues QUIT, and an exception raised by QUIT replaces the
    one that was on its way. Whatever reaches [except] is printed. *)
Definition send_email `{L : MailLibrary} (email_settings : EmailSettings)
    (transport : SmtpCommand → option string)
    (subject body to_email : string) : list Effect :=
  if negb (is_configured email_settings) then
    [Print "Email settings not configured; skipping email send."]
  else
    match compose_error subject (sender email_settings) to_email body with
    | Some exc => [Propagate exc]
    | None =>
        let message :=
          mkEmailMessage subject (sender email_settings) to_email body in
        let connect :=
          Connect (default "" (host email_settings)) (port email_settings) in
        match transport connect with
        | Some exc =>
            [Smtp connect;
             Print ("Failed to send email to " +:+ to_email +:+ ": " +:+ exc)]
        | None =>
            let '(es, r) := smtp_session transport (smtp_plan email_settings message) in
            Smtp connect :: es ++ Smtp Quit ::
              match transport Quit, r with
              | Some exc, _ =>
                  [Print ("Failed to send email to " +:+ to_email +:+ ": " +:+ exc)]
              | None, Some exc =>
                  [Print ("Failed to send email to " +:+ to_email +:+ ": " +:+ exc)]
              | None, None => []
              end
        end
    end.

(** Running a queued background task. *)
Definition run_task `{L : MailLibrary} (email_settings : EmailSettings)
    (transport : SmtpCommand → option string) (t : Task) : list Effect :=
  send_email email_settings transport (subject t) (body t) (to_email t).

(** A library call that raises nothing, for the examples below, whose header
    values hold no line break and whose addresses are well formed. *)
Definition composing_library : MailLibrary :=
  {| compose_error := λ _ _ _ _, None |}.


(** ** Concrete request sequences on the seed registry *)

Definition student (n : string) : string := n +:+ "@mergington.edu".

(** Ten signups that fill the Chess Club (2 seed members, capacity 12). *)
Definition chess_fill : list Request :=
  map (λ n, Signup "Chess Club" (student n))
      ["s01"; "s02"; "s03"; "s04"; "s05"; "s06"; "s07"; "s08"; "s09"; "s10"].

(** One more signup after the club is full. *)
Definition chess_overbooking : list Request :=
  chess_fill ++ [Signup "Chess Club" (student "late")].

(** [email] is on the roster of [name]. *)
Definition enrolled (name email : string) (acts : gmap string Activity) : Prop :=
  ∃ a, acts !! name = Some a ∧ email ∈ participants a.

(** An environment where the three mail settings are given, the port as 0. *)
Definition port_zero_env : gmap string string :=
  <["SMTP_HOST" := "smtp.mergington.edu"]>
  (<["SMTP_PORT" := "0"]>
  (<["FROM_EMAIL" := "activities@mergington.edu"]> ∅)).

(** An environment with a host and a sender address and no port. *)
Definition default_port_env : gmap string string :=
  <["SMTP_HOST" := "smtp.mergington.edu"]>
  (<["FROM_EMAIL" := "activities@mergington.edu"]> ∅).

(** The e-mails that the calls in flight have appended so far. *)
Fixpoint appended (cs : list SignupCall) : list string :=
  match cs with
  | [] => []
  | c :: cs' => if succeeded c then call_email c :: appended cs' else appended cs'
  end.

(** What holds of the calls and the shared registry at every instant, when
    the calls sign up the distinct e-mails [emails] for the activity [name],
    whose entry was [a0] when they started. *)
Definition signup_inv (name : string) (a0 : Activity) (emails : list string)
    (w : World) : Prop :=
  length (calls w) = length emails ∧
  (∀ i c, calls w !! i = Some c →
     call_activity c = name ∧ emails !! i = Some (call_email c) ∧
     (is_finished c = true →
      call_pc c = Finished (Return ("Signed up " +:+ call_email c +:+ " for " +:+ name)))) ∧
  ∃ a, shared w !! name = Some a ∧
       max_participants a = max_participants a0 ∧
       participants a ≡ₚ participants a0 ++ appended (calls w).

(** Eleven students rushing for the ten free places of the Chess Club. *)
Definition chess_rush : list string :=
  map student ["s01"; "s02"; "s03"; "s04"; "s05"; "s06"; "s07"; "s08"; "s09"; "s10"; "late"].

(** ** Reading requests and outcomes *)

(** The activity a request addresses and the e-mail it carries. *)
Definition request_activity (r : Request) : string :=
  match r with
  | Signup n _ => n
  | Unregister n _ => n
  end.

Definition request_email (r : Request) : string :=
  match r with
  | Signup _ e => e
  | Unregister _ e => e
  end.

(** The handler returned its body (status 200). *)
Definition is_return (o : Outcome) : bool :=
  match o with
  | Return _ => true
  | _ => false
  end.

(** Successful signups minus successful unregistrations for [name], while
    the requests are served in order. *)
Fixpoint net_enrollments (name : string) (rs : list Request)
    (acts : gmap string Activity) : Z :=
  match rs with
  | [] => 0
  | r :: rs' =>
      (if String.eqb (request_activity r) name && is_return (outcome (handle r acts))
       then match r with Signup _ _ => 1 | Unregister _ _ => -1 end
       else 0)
      + net_enrollments name rs' (registry (handle r acts))
  end.

(** A command that carries the credentials or the message. *)
Definition carries_secret_or_mail (c : SmtpCommand) : bool :=
  match c with
  | Login _ _ => true
  | SendMessage _ => true
  | _ => false
  end.


(** * Properties *)

(** ** List operations *)

Lemma py_in_true (x : string) (l : list string) : py_in x l = true ↔ x ∈ l.
Proof.
  unfold py_in. rewrite existsb_exists. split.
  - intros (y & Hy & Heq). apply String.eqb_eq in Heq. subst y.
    by apply list_elem_of_In.
  - intros Hx. exists x. split; [by apply list_elem_of_In | apply String.eqb_refl].
Qed.

Lemma py_in_false (x : string) (l : list string) : py_in x l = false ↔ x ∉ l.
Proof.
  rewrite <- py_in_true. destruct (py_in x l); split; congruence.
Qed.

(** [remove] after [append] of an absent element gives the list back. *)
Lemma py_remove_append (x : string) (l : list string) :
  x ∉ l → py_remove x (py_append l x) = Some l.
Proof.
  unfold py_append. induction l as [|y l IH]; intros Hx; simpl.
  - by rewrite String.eqb_refl.
  - apply not_elem_of_cons in Hx as [Hne Hx].
    destruct (String.eqb_spec y x) as [->|_]; [done|].
    by rewrite IH.
Qed.

(** [remove] of a member splits the list at its first occurrence. *)
Lemma py_remove_member (x : string) (l : list string) :
  x ∈ l →
  ∃ l1 l2, l = l1 ++ (x :: l2) ∧ (x ∉ l1) ∧ py_remove x l = Some (l1 ++ l2).
Proof.
  induction l as [|y l IH]; intros Hx; [by apply elem_of_nil in Hx|].
  simpl. destruct (String.eqb_spec y x) as [->|Hne].
  - exists [], l. split_and!; [done | apply not_elem_of_nil | done].
  - apply elem_of_cons in Hx as [->|Hx]; [done|].
    destruct (IH Hx) as (l1 & l2 & -> & Hl1 & ->).
    exists (y :: l1), l2. split_and!; [done | | done].
    apply not_elem_of_cons. split; [congruence | done].
Qed.

Lemma py_remove_absent (x : string) (l : list string) :
  x ∉ l → py_remove x l = None.
Proof.
  induction l as [|y l IH]; intros Hx; [done|].
  apply not_elem_of_cons in Hx as [Hne Hx]. simpl.
  destruct (String.eqb_spec y x) as [->|_]; [done|].
  by rewrite IH.
Qed.

Lemma set_participants_same (a : Activity) : set_participants a (participants a) = a.
Proof. by destruct a. Qed.

Lemma set_participants_twice (a : Activity) (ps ps' : list string) :
  set_participants (set_participants a ps) ps' = set_participants a ps'.
Proof. done. Qed.

(** ** The handlers, case by case *)

Lemma signup_unknown (name email : string) (acts : gmap string Activity) :
  acts !! name = None →
  signup_for_activity name email acts =
    mkResponse (Raise (mkHTTPException 404 "Activity not found")) acts [].
Proof. intros H. unfold signup_for_activity. by rewrite H. Qed.

Lemma signup_member (name email : string) (acts : gmap string Activity) (a : Activity) :
  acts !! name = Some a → email ∈ participants a →
  signup_for_activity name email acts =
    mkResponse (Raise (mkHTTPException 400 "Student is already signed up")) acts [].
Proof.
  intros H Hin. unfold signup_for_activity. rewrite H.
  apply py_in_true in Hin. by rewrite Hin.
Qed.

Lemma signup_fresh (name email : string) (acts : gmap string Activity) (a : Activity) :
  acts !! name = Some a → email ∉ participants a →
  let a' := set_participants a (participants a ++ [email]) in
  signup_for_activity name email acts =
    mkResponse (Return ("Signed up " +:+ email +:+ " for " +:+ name))
               (<[name := a']> acts)
               [mkTask ("Successfully Registered for " +:+ name)
                       (_registration_email_body name a' email) email].
Proof.
  intros H Hin. unfold signup_for_activity. rewrite H.
  apply py_in_false in Hin. by rewrite Hin.
Qed.

Lemma unregister_unknown (name email : string) (acts : gmap string Activity) :
  acts !! name = None →
  unregister_from_activity name email acts =
    mkResponse (Raise (mkHTTPException 404 "Activity not found")) acts [].
Proof. intros H. unfold unregister_from_activity. by rewrite H. Qed.

Lemma unregister_stranger (name email : string) (acts : gmap string Activity) (a : Activity) :
  acts !! name = Some a → email ∉ participants a →
  unregister_from_activity name email acts =
    mkResponse (Raise (mkHTTPException 400 "Student is not signed up for this activity"))
               acts [].
Proof.
  intros H Hin. unfold unregister_from_activity. rewrite H.
  apply py_in_false in Hin. by rewrite Hin.
Qed.

Lemma unregister_member (name email : string) (acts : gmap string Activity) (a : Activity) :
  acts !! name = Some a → email ∈ participants a →
  ∃ l1 l2, participants a = l1 ++ (email :: l2) ∧ (email ∉ l1) ∧
    let a' := set_participants a (l1 ++ l2) in
    unregister_from_activity name email acts =
      mkResponse (Return ("Unregistered " +:+ email +:+ " from " +:+ name))
                 (<[name := a']> acts)
                 [mkTask ("Activity Registration Cancelled - " +:+ name)
                         (_cancellation_email_body name a' email) email].
Proof.
  intros H Hin. destruct (py_remove_member _ _ Hin) as (l1 & l2 & Heq & Hl1 & Hrm).
  exists l1, l2. split_and!; [done..|].
  unfold unregister_from_activity. rewrite H.
  apply py_in_true in Hin. by rewrite Hin, Hrm.
Qed.

(** ** Unknown activities *)

(** C4: for every registry, every e-mail and every activity name that is not
    a key of the registry, signup and unregister both raise the 404
    "Activity not found" exception, leave the whole registry as it was and
    queue no notification. *)
Theorem unknown_activity_not_found
    (acts : gmap string Activity) (name email : string) :
  acts !! name = None →
  signup_for_activity name email acts =
    mkResponse (Raise (mkHTTPException 404 "Activity not found")) acts [] ∧
  unregister_from_activity name email acts =
    mkResponse (Raise (mkHTTPException 404 "Activity not found")) acts [].
Proof.
  intros H. split; [by apply signup_unknown | by apply unregister_unknown].
Qed.

Lemma unknown_activity_not_found_witness :
  activities !! "Nonexistent Club" = None ∧
  registry (signup_for_activity "Nonexistent Club" "a@b.edu" activities) = activities ∧
  outcome (unregister_from_activity "Nonexistent Club" "a@b.edu" activities) =
    Raise (mkHTTPException 404 "Activity not found").
Proof.
  assert (H : activities !! "Nonexistent Club" = None) by (vm_compute; reflexivity).
  destruct (unknown_activity_not_found activities "Nonexistent Club" "a@b.edu" H)
    as [Hs Hu].
  split; [exact H|]. rewrite Hs, Hu. split; reflexivity.
Defined.

(** ** Duplicate signups *)

Lemma serve_rejected_signups (name email : string) (acts : gmap string Activity) (n : nat) :
  enrolled name email acts →
  outcomes (replicate n (Signup name email)) acts =
    replicate n (Raise (mkHTTPException 400 "Student is already signed up")) ∧
  serve (replicate n (Signup name email)) acts = acts.
Proof.
  intros (a & Ha & Hin). induction n as [|n [IHo IHs]]; [done|].
  simpl. rewrite (signup_member _ _ _ _ Ha Hin). simpl. by rewrite IHo, IHs.
Qed.

Lemma signup_success_enrolls (name email msg : string) (acts : gmap string Activity) :
  outcome (signup_for_activity name email acts) = Return msg →
  enrolled name email (registry (signup_for_activity name email acts)).
Proof.
  unfold signup_for_activity. destruct (acts !! name) as [a|] eqn:Ha; [|done].
  destruct (py_in email (participants a)) eqn:Hin; [done|]. intros _. simpl.
  exists (set_participants a (py_append (participants a) email)).
  rewrite lookup_insert_eq. split; [done|].
  simpl. unfold py_append. apply elem_of_app. right. apply list_elem_of_singleton. done.
Qed.

(** C3: if the e-mail is already on the roster of an activity, signup raises
    the 400 "Student is already signed up" exception and the registry stays as
    it was; any number of repeated attempts all end that way. A successful
    signup puts the e-mail on the roster, so every attempt after the first
    success is rejected in this way. *)
Theorem duplicate_signup_rejected
    (acts : gmap string Activity) (name email : string) (n : nat) :
  let already := Raise (mkHTTPException 400 "Student is already signed up") in
  (enrolled name email acts →
     signup_for_activity name email acts = mkResponse already acts [] ∧
     outcomes (replicate n (Signup name email)) acts = replicate n already ∧
     serve (replicate n (Signup name email)) acts = acts) ∧
  (∀ msg, outcome (signup_for_activity name email acts) = Return msg →
     let acts' := registry (signup_for_activity name email acts) in
     enrolled name email acts' ∧
     outcomes (replicate n (Signup name email)) acts' = replicate n already ∧
     serve (replicate n (Signup name email)) acts' = acts').
Proof.
  intros already. split.
  - intros Hen. split.
    + destruct Hen as (a & Ha & Hin). by apply (signup_member _ _ _ a).
    + by apply serve_rejected_signups.
  - intros msg Hok acts'.
    assert (Hen : enrolled name email acts') by (by apply (signup_success_enrolls _ _ msg)).
    split; [done|]. by apply serve_rejected_signups.
Qed.

Lemma duplicate_signup_rejected_witness :
  enrolled "Chess Club" "michael@mergington.edu" activities ∧
  outcomes (replicate 2 (Signup "Chess Club" "michael@mergington.edu")) activities =
    replicate 2 (Raise (mkHTTPException 400 "Student is already signed up")) ∧
  outcomes (replicate 3 (Signup "Chess Club" "new@mergington.edu")) activities =
    [Return "Signed up new@mergington.edu for Chess Club";
     Raise (mkHTTPException 400 "Student is already signed up");
     Raise (mkHTTPException 400 "Student is already signed up")].
Proof.
  assert (Hen : enrolled "Chess Club" "michael@mergington.edu" activities).
  { eexists. split; [vm_compute; reflexivity|]. apply py_in_true. reflexivity. }
  split; [exact Hen|]. split.
  - destruct (duplicate_signup_rejected activities "Chess Club" "michael@mergington.edu" 2)
      as [H _].
    destruct (H Hen) as (_ & Ho & _). exact Ho.
  - destruct (duplicate_signup_rejected activities "Chess Club" "new@mergington.edu" 2)
      as [_ H].
    destruct (H "Signed up new@mergington.edu for Chess Club") as (_ & Ho & _);
      [vm_compute; reflexivity|].
    change (outcomes (replicate 3 (Signup "Chess Club" "new@mergington.edu")) activities)
      with (outcome (signup_for_activity "Chess Club" "new@mergington.edu" activities) ::
            outcomes (replicate 2 (Signup "Chess Club" "new@mergington.edu"))
              (registry (signup_for_activity "Chess Club" "new@mergington.edu" activities))).
    rewrite Ho. vm_compute. reflexivity.
Defined.

(** ** Unregistering *)

(** C5: for an existing activity, unregister returns its confirmation exactly
    when the e-mail is on the roster; the roster afterwards is the old one
    without the first occurrence of the e-mail, the other members in their
    order (on a roster without duplicates the e-mail is gone), and the
    capacity is as before. When the e-mail is not on the roster it raises the
    400 "Student is not signed up for this activity" exception and the
    registry stays as it was. The capacity plays no part: with any other value
    of max_participants the outcome and the resulting roster are the same. *)
Theorem unregister_removes_iff_present
    (acts : gmap string Activity) (name email : string) (a : Activity) :
  acts !! name = Some a →
  let r := unregister_from_activity name email acts in
  ((∃ msg, outcome r = Return msg) ↔ email ∈ participants a) ∧
  (email ∈ participants a →
     ∃ l1 l2, participants a = l1 ++ (email :: l2) ∧ (email ∉ l1) ∧
       outcome r = Return ("Unregistered " +:+ email +:+ " from " +:+ name) ∧
       registry r = <[name := set_participants a (l1 ++ l2)]> acts ∧
       (∃ a', registry r !! name = Some a' ∧
              participants a' = l1 ++ l2 ∧
              (length (participants a') + 1 = length (participants a))%nat ∧
              max_participants a' = max_participants a) ∧
       (∀ n, n ≠ name → registry r !! n = acts !! n) ∧
       (NoDup (participants a) → email ∉ l1 ++ l2)) ∧
  (email ∉ participants a →
     r = mkResponse
           (Raise (mkHTTPException 400 "Student is not signed up for this activity"))
           acts []) ∧
  (∀ m : Z,
     let r' := unregister_from_activity name email
                 (<[name := with_max_participants m a]> acts) in
     outcome r' = outcome r ∧
     participants <$> (registry r' !! name) = participants <$> (registry r !! name)).
Proof.
  intros Ha r.
  assert (Hmem : email ∈ participants a →
     ∃ l1 l2, participants a = l1 ++ (email :: l2) ∧ (email ∉ l1) ∧
       outcome r = Return ("Unregistered " +:+ email +:+ " from " +:+ name) ∧
       registry r = <[name := set_participants a (l1 ++ l2)]> acts).
  { intros Hin. destruct (unregister_member _ _ _ _ Ha Hin) as (l1 & l2 & Heq & Hl1 & Hr).
    exists l1, l2. subst r. by rewrite Hr. }
  assert (Hout : email ∉ participants a →
     r = mkResponse
           (Raise (mkHTTPException 400 "Student is not signed up for this activity"))
           acts []).
  { intros Hin. by apply (unregister_stranger _ _ _ a). }
  split_and!.
  - split.
    + intros [msg Hmsg]. destruct (decide (email ∈ participants a)) as [|Hn]; [done|].
      rewrite (Hout Hn) in Hmsg. done.
    + intros Hin. destruct (Hmem Hin) as (l1 & l2 & _ & _ & Ho & _). eauto.
  - intros Hin. destruct (Hmem Hin) as (l1 & l2 & Heq & Hl1 & Ho & Hr).
    exists l1, l2. split_and!; [done | done | done | done | | |].
    + exists (set_participants a (l1 ++ l2)). rewrite Hr, lookup_insert_eq.
      split_and!; [done | done | | done].
      simpl. rewrite Heq, !length_app. simpl. lia.
    + intros n Hn. rewrite Hr. by rewrite lookup_insert_ne.
    + rewrite Heq. intros Hnd. apply NoDup_app in Hnd as (_ & _ & Hnd).
      apply NoDup_cons in Hnd as [Hl2 _].
      intros [H|H]%elem_of_app; done.
  - done.
  - intros m r'. subst r r'. unfold unregister_from_activity.
    rewrite Ha, lookup_insert_eq. simpl.
    destruct (py_in email (participants a)); simpl; [|by rewrite Ha, lookup_insert_eq].
    destruct (py_remove email (participants a)); simpl;
      [by rewrite !lookup_insert_eq | by rewrite Ha, lookup_insert_eq].
Qed.

Lemma unregister_removes_iff_present_witness :
  registry (unregister_from_activity "Chess Club" "stranger@mergington.edu" activities)
    = activities ∧
  outcome (unregister_from_activity "Chess Club" "stranger@mergington.edu" activities)
    = Raise (mkHTTPException 400 "Student is not signed up for this activity") ∧
  outcome (unregister_from_activity "Chess Club" "michael@mergington.edu" activities)
    = Return "Unregistered michael@mergington.edu from Chess Club" ∧
  ∃ a', registry (unregister_from_activity "Chess Club" "michael@mergington.edu" activities)
          !! "Chess Club" = Some a' ∧
        participants a' = ["daniel@mergington.edu"] ∧ max_participants a' = 12.
Proof.
  assert (Ha : activities !! "Chess Club" =
    Some (seed_activity "Learn strategies and compete in chess tournaments"
            "Fridays, 3:30 PM - 5:00 PM" 12
            "michael@mergington.edu" "daniel@mergington.edu"))
    by (vm_compute; reflexivity).
  destruct (unregister_removes_iff_present activities "Chess Club"
              "stranger@mergington.edu" _ Ha) as (_ & _ & Hout & _).
  destruct (unregister_removes_iff_present activities "Chess Club"
              "michael@mergington.edu" _ Ha) as (_ & Hmem & _).
  rewrite Hout by (apply py_in_false; reflexivity).
  split_and!; [reflexivity | reflexivity | |].
  - destruct Hmem as (l1 & l2 & _ & _ & Ho & _); [apply py_in_true; reflexivity|].
    exact Ho.
  - destruct Hmem as (l1 & l2 & Heq & Hl1 & _ & _ & (a' & Ha' & Hps & _ & Hmax) & _);
      [apply py_in_true; reflexivity|].
    exists a'. split; [exact Ha'|]. split; [|exact Hmax].
    rewrite Hps. simpl in Heq.
    destruct l1 as [|x l1].
    + simpl in Heq. injection Heq as <-. reflexivity.
    + exfalso. simpl in Heq. injection Heq as <- _. apply Hl1.
      apply elem_of_cons. by left.
Defined.

(** ** Round trip *)

(** C6: for an activity of the registry and an e-mail that is not on its
    roster, signup succeeds, the unregister that follows succeeds too, and
    the registry is then exactly the one before the signup: the roster is the
    prior list, in the prior order. *)
Theorem signup_then_unregister_restores
    (acts : gmap string Activity) (name email : string) (a : Activity) :
  acts !! name = Some a → email ∉ participants a →
  let r1 := signup_for_activity name email acts in
  let r2 := unregister_from_activity name email (registry r1) in
  outcome r1 = Return ("Signed up " +:+ email +:+ " for " +:+ name) ∧
  registry r1 !! name = Some (set_participants a (participants a ++ [email])) ∧
  outcome r2 = Return ("Unregistered " +:+ email +:+ " from " +:+ name) ∧
  registry r2 !! name = Some a ∧
  registry r2 = acts.
Proof.
  intros Ha Hin r1 r2. subst r2 r1.
  rewrite (signup_fresh _ _ _ _ Ha Hin). simpl.
  unfold unregister_from_activity. rewrite lookup_insert_eq. simpl.
  assert (Hmem : py_in email (participants a ++ [email]) = true).
  { apply py_in_true, elem_of_app. right. by apply list_elem_of_singleton. }
  rewrite Hmem. simpl.
  pose proof (py_remove_append email (participants a) Hin) as Hrm.
  unfold py_append in Hrm. rewrite Hrm. simpl.
  rewrite insert_insert_eq, set_participants_twice, set_participants_same.
  rewrite (insert_id acts name a Ha). done.
Qed.

Lemma signup_then_unregister_restores_witness :
  registry (unregister_from_activity "Chess Club" "new@mergington.edu"
    (registry (signup_for_activity "Chess Club" "new@mergington.edu" activities)))
  = activities.
Proof.
  assert (Ha : activities !! "Chess Club" =
    Some (seed_activity "Learn strategies and compete in chess tournaments"
            "Fridays, 3:30 PM - 5:00 PM" 12
            "michael@mergington.edu" "daniel@mergington.edu"))
    by (vm_compute; reflexivity).
  assert (Hin : "new@mergington.edu" ∉ participants
    (seed_activity "Learn strategies and compete in chess tournaments"
            "Fridays, 3:30 PM - 5:00 PM" 12
            "michael@mergington.edu" "daniel@mergington.edu"))
    by (apply py_in_false; reflexivity).
  exact (proj2 (proj2 (proj2 (proj2
    (signup_then_unregister_restores activities "Chess Club" "new@mergington.edu" _ Ha Hin))))).
Defined.

(** ** Signing up *)

(** C2, as claimed, fails: on the registry reached from the seed by ten
    signups the Chess Club roster has 12 members for a capacity of 12, so
    [len(participants) < max_participants] is false; the next signup is not
    refused, it returns its confirmation and the roster has 13 members. *)
Lemma full_roster_still_accepts :
  let full := serve chess_fill activities in
  let r := signup_for_activity "Chess Club" (student "late") full in
  (∃ a, full !! "Chess Club" = Some a ∧
        ¬ (Z.of_nat (length (participants a)) < max_participants a) ∧
        student "late" ∉ participants a) ∧
  outcome r = Return "Signed up late@mergington.edu for Chess Club" ∧
  (∃ a', registry r !! "Chess Club" = Some a' ∧
         student "late" ∈ participants a' ∧
         max_participants a' = 12 ∧ length (participants a') = 13%nat).
Proof.
  split_and!.
  - eexists. split; [vm_compute; reflexivity|]. split.
    + vm_compute. intros H; discriminate H.
    + apply py_in_false. vm_compute. reflexivity.
  - vm_compute. reflexivity.
  - eexists. split; [vm_compute; reflexivity|]. split_and!.
    + apply py_in_true. vm_compute. reflexivity.
    + reflexivity.
    + reflexivity.
Qed.

(** C2, amended: signup returns its confirmation, and then appends the e-mail
    to the roster, if and only if the activity exists and the e-mail is not
    already on the roster; the capacity is not consulted, so this holds
    whatever [max_participants] is. In every other case the registry stays as
    it was. The only failures are the 404 "Activity not found" and the 400
    "Student is already signed up" exceptions: no outcome reports a full
    roster. *)
Theorem signup_adds_iff_known_and_absent
    (acts : gmap string Activity) (name email : string) :
  let r := signup_for_activity name email acts in
  ((∃ msg, outcome r = Return msg) ↔
     ∃ a, acts !! name = Some a ∧ email ∉ participants a) ∧
  (∀ a, acts !! name = Some a → email ∉ participants a →
     outcome r = Return ("Signed up " +:+ email +:+ " for " +:+ name) ∧
     registry r = <[name := set_participants a (participants a ++ [email])]> acts) ∧
  ((∀ msg, outcome r ≠ Return msg) → registry r = acts) ∧
  (outcome r = Return ("Signed up " +:+ email +:+ " for " +:+ name) ∨
   outcome r = Raise (mkHTTPException 404 "Activity not found") ∨
   outcome r = Raise (mkHTTPException 400 "Student is already signed up")).
Proof.
  intros r. subst r.
  destruct (acts !! name) as [a|] eqn:Ha.
  - destruct (decide (email ∈ participants a)) as [Hin|Hin].
    + rewrite (signup_member _ _ _ _ Ha Hin). simpl. split_and!.
      * split; [by intros [? ?] | by intros (a' & [= <-] & Hn)].
      * by intros a' [= <-] Hn.
      * done.
      * auto.
    + rewrite (signup_fresh _ _ _ _ Ha Hin). simpl. split_and!.
      * split; [by exists a | eauto].
      * by intros a' [= <-] _.
      * intros H. by destruct (H ("Signed up " +:+ email +:+ " for " +:+ name)).
      * auto.
  - rewrite (signup_unknown _ _ _ Ha). simpl. split_and!.
    + split; [by intros [? ?] | by intros (a' & ? & _)].
    + by intros a' ?.
    + done.
    + auto.
Qed.

Lemma signup_adds_iff_known_and_absent_witness :
  outcome (signup_for_activity "Math Club" "new@mergington.edu" activities) =
    Return "Signed up new@mergington.edu for Math Club" ∧
  registry (signup_for_activity "Math Club" "new@mergington.edu" activities) =
    <["Math Club" :=
        mkActivity "Solve challenging problems and participate in math competitions"
          (Some "Tuesdays, 3:30 PM - 4:30 PM") None 10
          ["james@mergington.edu"; "benjamin@mergington.edu"; "new@mergington.edu"]]>
      activities.
Proof.
  destruct (signup_adds_iff_known_and_absent activities "Math Club" "new@mergington.edu")
    as (_ & H & _).
  apply (H (seed_activity "Solve challenging problems and participate in math competitions"
            "Tuesdays, 3:30 PM - 4:30 PM" 10
            "james@mergington.edu" "benjamin@mergington.edu")).
  - vm_compute. reflexivity.
  - apply py_in_false. reflexivity.
Defined.

(** ** The Chess Club scenario *)

(** C7: on the seed registry the Chess Club has 2 members and capacity 12;
    signing up new@mergington.edu there returns the confirmation "Signed up
    new@mergington.edu for Chess Club"; afterwards the roster has 3 members,
    the new e-mail among them, and exactly one notification has been queued,
    addressed to new@mergington.edu with a subject that contains "Chess
    Club". *)
Theorem chess_club_signup_scenario :
  let r := signup_for_activity "Chess Club" "new@mergington.edu" activities in
  (∃ a, activities !! "Chess Club" = Some a ∧
        length (participants a) = 2%nat ∧ max_participants a = 12) ∧
  outcome r = Return "Signed up new@mergington.edu for Chess Club" ∧
  (∃ a', registry r !! "Chess Club" = Some a' ∧
         length (participants a') = 3%nat ∧
         "new@mergington.edu" ∈ participants a') ∧
  (∃ t, tasks r = [t] ∧ to_email t = "new@mergington.edu" ∧
        ∃ pre post, subject t = pre +:+ "Chess Club" +:+ post).
Proof.
  split_and!.
  - eexists. split; [vm_compute; reflexivity|]. split; reflexivity.
  - vm_compute. reflexivity.
  - eexists. split; [vm_compute; reflexivity|]. split; [reflexivity|].
    apply py_in_true. reflexivity.
  - eexists. split; [vm_compute; reflexivity|]. split; [reflexivity|].
    exists "Successfully Registered for ", "". reflexivity.
Qed.

(** ** Exact comparison of e-mails *)

(** C10: membership in both handlers is exact string equality. If the roster
    of an activity holds a spelling [e] of an e-mail and not another spelling
    [e'] (such as a@x.edu and A@x.edu), then [e] is found: signup with [e]
    raises the 400 "Student is already signed up" exception and unregister
    with [e] succeeds; and [e'] is not: unregister with [e'] raises the 400
    "Student is not signed up for this activity" exception and changes
    nothing, and signup with [e'] succeeds and appends it, so that both
    spellings are on the roster as two participants. *)
Theorem membership_is_case_sensitive
    (acts : gmap string Activity) (name e e' : string) (a : Activity) :
  acts !! name = Some a →
  e ∈ participants a → e' ∉ participants a →
  signup_for_activity name e acts =
    mkResponse (Raise (mkHTTPException 400 "Student is already signed up")) acts [] ∧
  outcome (unregister_from_activity name e acts) =
    Return ("Unregistered " +:+ e +:+ " from " +:+ name) ∧
  unregister_from_activity name e' acts =
    mkResponse
      (Raise (mkHTTPException 400 "Student is not signed up for this activity"))
      acts [] ∧
  outcome (signup_for_activity name e' acts) =
    Return ("Signed up " +:+ e' +:+ " for " +:+ name) ∧
  ∃ a', registry (signup_for_activity name e' acts) !! name = Some a' ∧
        participants a' = participants a ++ [e'] ∧
        e ∈ participants a' ∧ e' ∈ participants a' ∧ e ≠ e' ∧
        length (participants a') = S (length (participants a)).
Proof.
  intros Ha Hin Hout. split_and!.
  - by apply (signup_member _ _ _ a).
  - destruct (unregister_member _ _ _ _ Ha Hin) as (l1 & l2 & _ & _ & ->). done.
  - by apply (unregister_stranger _ _ _ a).
  - by rewrite (signup_fresh _ _ _ _ Ha Hout).
  - rewrite (signup_fresh _ _ _ _ Ha Hout). simpl. rewrite lookup_insert_eq.
    eexists. split; [done|]. simpl. split_and!.
    + done.
    + apply elem_of_app. by left.
    + apply elem_of_app. right. by apply list_elem_of_singleton.
    + intros ->. done.
    + rewrite length_app. simpl. lia.
Qed.

Lemma membership_is_case_sensitive_witness :
  let acts : gmap string Activity :=
    <["Chess Club" := seed_activity "Learn strategies and compete in chess tournaments"
        "Fridays, 3:30 PM - 5:00 PM" 12 "a@x.edu" "daniel@mergington.edu"]> activities in
  py_lower "A@x.edu" = py_lower "a@x.edu" ∧
  outcome (signup_for_activity "Chess Club" "a@x.edu" acts) =
    Raise (mkHTTPException 400 "Student is already signed up") ∧
  outcome (unregister_from_activity "Chess Club" "a@x.edu" acts) =
    Return "Unregistered a@x.edu from Chess Club" ∧
  outcome (unregister_from_activity "Chess Club" "A@x.edu" acts) =
    Raise (mkHTTPException 400 "Student is not signed up for this activity") ∧
  outcome (signup_for_activity "Chess Club" "A@x.edu" acts) =
    Return "Signed up A@x.edu for Chess Club" ∧
  ∃ a', registry (signup_for_activity "Chess Club" "A@x.edu" acts) !! "Chess Club"
          = Some a' ∧
        participants a' = ["a@x.edu"; "daniel@mergington.edu"; "A@x.edu"].
Proof.
  intros acts.
  destruct (membership_is_case_sensitive acts "Chess Club" "a@x.edu" "A@x.edu"
    (seed_activity "Learn strategies and compete in chess tournaments"
        "Fridays, 3:30 PM - 5:00 PM" 12 "a@x.edu" "daniel@mergington.edu"))
    as (Hs & Hu & Hu' & Hs' & a' & Ha' & Hps & _).
  - vm_compute. reflexivity.
  - apply py_in_true. reflexivity.
  - apply py_in_false. reflexivity.
  - rewrite Hs, Hu, Hu', Hs'. split_and!; try reflexivity.
    exists a'. split; [exact Ha' | exact Hps].
Defined.

(** ** Roster sizes along request sequences *)

Lemma py_remove_length (x : string) (l r : list string) :
  py_remove x l = Some r → length l = S (length r).
Proof.
  revert r. induction l as [|y l IH]; intros r; simpl; [done|].
  destruct (String.eqb y x); [by intros [= ->]|].
  destruct (py_remove x l) as [r'|]; [|done].
  intros [= <-]. simpl. by rewrite (IH r').
Qed.







(** ** The notifier's configuration *)

Lemma truthy_opt_true (o : option string) :
  truthy_opt o = true ↔ ∃ v, o = Some v ∧ v ≠ "".
Proof.
  destruct o as [v|]; simpl.
  - unfold truthy. destruct (String.eqb_spec v "") as [->|Hne]; simpl.
    + split; [done | by intros (? & [= <-] & ?)].
    + split; [by exists v | done].
  - split; [done | by intros (? & ? & _)].
Qed.

(** C8, as claimed, fails: with SMTP_HOST, SMTP_PORT and FROM_EMAIL all given,
    the port as 0, the three settings are present and the notifier is not
    configured. *)
Lemma present_but_not_configured :
  let s := EmailSettings_init port_zero_env in
  is_Some (port_zero_env !! "SMTP_HOST") ∧
  is_Some (port_zero_env !! "SMTP_PORT") ∧
  is_Some (port_zero_env !! "FROM_EMAIL") ∧
  host s = Some "smtp.mergington.edu" ∧ port s = 0 ∧
  from_email s = Some "activities@mergington.edu" ∧
  is_configured s = false.
Proof.
  split_and!; try (eexists; vm_compute; reflexivity); vm_compute; reflexivity.
Qed.

(** C8, amended: the notifier is configured if and only if the host and the
    sender address are set to non-empty strings and the port is not 0 (the
    three being present is necessary, not sufficient). Whenever it is not
    configured, a send_email call opens no SMTP session and only prints the
    skip line. The settings read SMTP_HOST and FROM_EMAIL as they are, and
    the port is 587 when SMTP_PORT is unset. *)
Theorem configured_iff_settings_truthy `{L : MailLibrary}
    (s : EmailSettings) (env : gmap string string)
    (transport : SmtpCommand → option string) (subject body to_email : string) :
  (is_configured s = true ↔
     (∃ h, host s = Some h ∧ h ≠ "") ∧ port s ≠ 0 ∧
     (∃ f, from_email s = Some f ∧ f ≠ "")) ∧
  (is_configured s = false →
     send_email s transport subject body to_email =
       [Print "Email settings not configured; skipping email send."]) ∧
  host (EmailSettings_init env) = env !! "SMTP_HOST" ∧
  from_email (EmailSettings_init env) = env !! "FROM_EMAIL" ∧
  (env !! "SMTP_PORT" = None → port (EmailSettings_init env) = 587).
Proof.
  split_and!.
  - unfold is_configured. rewrite !andb_true_iff, !truthy_opt_true, negb_true_iff.
    rewrite Z.eqb_neq. tauto.
  - intros H. unfold send_email. by rewrite H.
  - done.
  - done.
  - intros H. simpl. unfold _get_int_env. by rewrite H.
Qed.

Lemma configured_iff_settings_truthy_witness :
  send_email (L := composing_library) (EmailSettings_init ∅) (λ _, None)
    "Successfully Registered for Chess Club" "" "new@mergington.edu" =
    [Print "Email settings not configured; skipping email send."] ∧
  port (EmailSettings_init default_port_env) = 587 ∧
  is_configured (EmailSettings_init default_port_env) = true.
Proof.
  split_and!.
  - apply (configured_iff_settings_truthy (L := composing_library)
             (EmailSettings_init ∅) ∅). reflexivity.
  - apply (configured_iff_settings_truthy (L := composing_library)
             (EmailSettings_init ∅) default_port_env (λ _, None) "" "" ""). reflexivity.
  - apply (configured_iff_settings_truthy (L := composing_library)
             (EmailSettings_init default_port_env) ∅ (λ _, None) "" "" "").
    split_and!.
    + exists "smtp.mergington.edu". split; [reflexivity | intros H; discriminate H].
    + vm_compute. intros H; discriminate H.
    + exists "activities@mergington.edu". split; [reflexivity | intros H; discriminate H].
Defined.

(** ** Interleaved signups *)

Lemma step_call_single (c : SignupCall) (acts : gmap string Activity) :
  step_call 0 (mkWorld [c] acts) =
    mkWorld [(signup_step c acts).1] (signup_step c acts).2.
Proof. unfold step_call. simpl. by destruct (signup_step c acts). Qed.

(** Run alone, the three steps of a call are the handler. *)
Lemma signup_steps_refine_handler (name email : string) (acts : gmap string Activity) :
  let r := signup_for_activity name email acts in
  run_schedule [0; 0; 0]%nat (mkWorld [new_call name email] acts) =
    mkWorld [mkSignupCall name email (Finished (outcome r)) (tasks r)] (registry r).
Proof.
  intros r. subst r.
  change (run_schedule [0; 0; 0]%nat (mkWorld [new_call name email] acts))
    with (step_call 0 (step_call 0 (step_call 0 (mkWorld [new_call name email] acts)))).
  unfold signup_for_activity.
  rewrite step_call_single. unfold signup_step at 1 2. simpl.
  destruct (acts !! name) as [a|] eqn:Ha; simpl.
  - rewrite step_call_single. unfold signup_step at 1 2. simpl. rewrite Ha.
    destruct (py_in email (participants a)); simpl.
    + by rewrite step_call_single.
    + rewrite step_call_single. unfold signup_step. simpl. by rewrite Ha.
  - by rewrite !step_call_single.
Qed.

Lemma elem_of_appended (e : string) (cs : list SignupCall) :
  e ∈ appended cs ↔ ∃ c, c ∈ cs ∧ succeeded c = true ∧ call_email c = e.
Proof.
  induction cs as [|x cs IH]; simpl.
  - split; [by intros ?%elem_of_nil | by intros (c & ?%elem_of_nil & _)].
  - destruct (succeeded x) eqn:Hx.
    + rewrite elem_of_cons, IH. split.
      * intros [->|(c & Hc & Hs & He)].
        -- exists x. split_and!; [apply elem_of_cons; by left | done..].
        -- exists c. split_and!; [apply elem_of_cons; by right | done..].
      * intros (c & [->|Hc]%elem_of_cons & Hs & He); [by left|]. right. by exists c.
    + rewrite IH. split.
      * intros (c & Hc & Hs & He). exists c. split_and!; [apply elem_of_cons; by right|done..].
      * intros (c & [->|Hc]%elem_of_cons & Hs & He); [congruence|]. by exists c.
Qed.

(** Replacing a call that has not appended yet. *)
Lemma appended_insert (cs : list SignupCall) (i : nat) (c c' : SignupCall) :
  cs !! i = Some c → succeeded c = false →
  appended (<[i := c']> cs) ≡ₚ
    (if succeeded c' then [call_email c'] else []) ++ appended cs.
Proof.
  revert i. induction cs as [|x cs IH]; intros i Hi Hc; [done|].
  destruct i as [|i]; simpl in *.
  - injection Hi as ->. rewrite Hc. by destruct (succeeded c').
  - specialize (IH i Hi Hc). destruct (succeeded x); [|done].
    rewrite IH. by rewrite Permutation_middle.
Qed.

Lemma appended_all_succeeded (cs : list SignupCall) :
  Forall (λ c, succeeded c = true) cs → appended cs = map call_email cs.
Proof.
  induction 1 as [|c cs Hc _ IH]; simpl; [done|]. by rewrite Hc, IH.
Qed.

Lemma appended_new_calls (name : string) (es : list string) :
  appended (map (new_call name) es) = [].
Proof. induction es as [|e es IH]; [done|]. simpl. exact IH. Qed.

Section Interleaving.
Variables (name : string) (a0 : Activity) (emails : list string).
Hypothesis emails_distinct : NoDup emails.
Hypothesis emails_fresh : ∀ e, e ∈ emails → e ∉ participants a0.

(** The calls start before the existence test, on a registry that holds
    the activity. *)
Lemma signup_inv_start (acts : gmap string Activity) :
  acts !! name = Some a0 →
  signup_inv name a0 emails (mkWorld (map (new_call name) emails) acts).
Proof using Type.
  intros Ha. split_and!; simpl.
  - by rewrite length_map.
  - intros i c Hi. apply list_lookup_fmap_Some in Hi as (e & -> & He).
    simpl. split_and!; [done | done | discriminate].
  - exists a0. split_and!; [done..|].
    by rewrite appended_new_calls, app_nil_r.
Qed.

(** A call that has not appended finds its e-mail absent from the roster. *)
Lemma pending_email_absent (w : World) (j : nat) (c : SignupCall) (a : Activity) :
  signup_inv name a0 emails w →
  calls w !! j = Some c → succeeded c = false →
  shared w !! name = Some a →
  py_in (call_email c) (participants a) = false.
Proof using emails_distinct emails_fresh.
  intros (_ & Hcalls & a' & Ha' & _ & Hperm) Hj Hc Ha.
  assert (a' = a) as -> by congruence.
  apply py_in_false. rewrite Hperm. intros [Hin|Hin]%elem_of_app.
  - destruct (Hcalls j c Hj) as (_ & He & _).
    apply (emails_fresh (call_email c)); [|done].
    by apply list_elem_of_lookup_2 in He.
  - apply elem_of_appended in Hin as (c2 & Hc2 & Hs & He).
    apply list_elem_of_lookup in Hc2 as [k Hk].
    destruct (Hcalls j c Hj) as (_ & Hej & _).
    destruct (Hcalls k c2 Hk) as (_ & Hek & _).
    rewrite He in Hek.
    assert (k = j) as -> by (by apply (NoDup_lookup emails k j (call_email c))).
    congruence.
Qed.

(** Installing the next state of call [j]. *)
Lemma signup_inv_update (w : World) (j : nat) (c c' : SignupCall)
    (acts' : gmap string Activity) (a' : Activity) :
  signup_inv name a0 emails w →
  calls w !! j = Some c → succeeded c = false →
  call_activity c' = name → call_email c' = call_email c →
  (is_finished c' = true →
   call_pc c' = Finished (Return ("Signed up " +:+ call_email c' +:+ " for " +:+ name))) →
  acts' !! name = Some a' →
  max_participants a' = max_participants a0 →
  participants a' ≡ₚ
    participants a0 ++ (if succeeded c' then [call_email c'] else []) ++ appended (calls w) →
  signup_inv name a0 emails (mkWorld (<[j := c']> (calls w)) acts').
Proof using Type.
  intros (Hlen & Hcalls & _) Hj Hc Hn He Hfin Ha' Hmax Hperm.
  split_and!; simpl.
  - by rewrite length_insert.
  - intros i d Hi. destruct (decide (i = j)) as [->|Hne].
    + rewrite list_lookup_insert_eq in Hi by (by eapply lookup_lt_Some).
      injection Hi as <-. destruct (Hcalls j c Hj) as (_ & Hej & _).
      split_and!; [done | by rewrite He | done].
    + rewrite list_lookup_insert_ne in Hi by done. by apply Hcalls.
  - exists a'. split_and!; [done..|].
    by rewrite Hperm, (appended_insert _ _ c c' Hj Hc).
Qed.

(** One step of any call keeps the invariant; the call that moved has made
    one more step, unless it had finished, and the others are as before. *)
Lemma step_call_inv (j : nat) (w : World) :
  signup_inv name a0 emails w →
  signup_inv name a0 emails (step_call j w) ∧
  ∀ i c, calls w !! i = Some c →
    ∃ c', calls (step_call j w) !! i = Some c' ∧
          progress c' = if decide (j = i) then Nat.min (progress c + 1) 3
                        else progress c.
Proof using emails_distinct emails_fresh.
  intros Hinv. unfold step_call.
  destruct (calls w !! j) as [c|] eqn:Hj.
  2:{ split; [done|]. intros i c Hi. exists c. split; [done|].
      case_decide; [congruence|done]. }
  assert (Hother : ∀ c' acts', progress c' = Nat.min (progress c + 1) 3 →
    ∀ i d, calls w !! i = Some d →
      ∃ d', calls (mkWorld (<[j := c']> (calls w)) acts') !! i = Some d' ∧
            progress d' = if decide (j = i) then Nat.min (progress d + 1) 3
                          else progress d).
  { intros c' acts' Hp i d Hi. simpl. case_decide as Hji.
    - subst i. exists c'. rewrite list_lookup_insert_eq by (by eapply lookup_lt_Some).
      split; [done|]. congruence.
    - exists d. by rewrite list_lookup_insert_ne. }
  pose proof Hinv as (Hlen & Hcalls & a & Ha & Hmax & Hperm).
  destruct (Hcalls j c Hj) as (Hn & He & Hfin).
  unfold signup_step. rewrite Hn, Ha.
  destruct (call_pc c) as [| | |o] eqn:Hpc.
  - split; [|apply Hother; unfold progress; by rewrite Hpc].
    apply (signup_inv_update w j c _ _ a); try done.
    unfold succeeded. by rewrite Hpc.
  - assert (Hs : succeeded c = false) by (unfold succeeded; by rewrite Hpc).
    rewrite (pending_email_absent w j c a Hinv Hj Hs Ha).
    split; [|apply Hother; unfold progress; by rewrite Hpc].
    by apply (signup_inv_update w j c _ _ a).
  - assert (Hs : succeeded c = false) by (unfold succeeded; by rewrite Hpc).
    split; [|apply Hother; unfold progress; by rewrite Hpc].
    apply (signup_inv_update w j c _ _
             (set_participants a (py_append (participants a) (call_email c))));
      try done.
    + by rewrite lookup_insert_eq.
    + simpl. unfold py_append. rewrite Hperm.
      rewrite <- (assoc_L (++)). apply Permutation_app_head.
      by rewrite Permutation_app_comm.
  - split.
    + rewrite list_insert_id by done. by destruct w.
    + intros i d Hi. simpl. rewrite list_insert_id by done.
      exists d. split; [done|]. case_decide; [|done].
      subst i. assert (d = c) as -> by congruence.
      unfold progress. by rewrite Hpc.
Qed.

(** The same along a whole schedule. *)
Lemma run_schedule_inv (sched : list nat) (w : World) :
  signup_inv name a0 emails w →
  signup_inv name a0 emails (run_schedule sched w) ∧
  ∀ i c, calls w !! i = Some c →
    ∃ c', calls (run_schedule sched w) !! i = Some c' ∧
          progress c' = Nat.min (progress c + times_scheduled i sched) 3.
Proof using emails_distinct emails_fresh.
  revert w. induction sched as [|j sched IH]; intros w Hinv; simpl.
  - split; [done|]. intros i c Hi. exists c. split; [done|].
    unfold times_scheduled. simpl.
    unfold progress. destruct (call_pc c); simpl; lia.
  - destruct (step_call_inv j w Hinv) as [Hinv' Hstep].
    destruct (IH _ Hinv') as [Hinv'' Hrun].
    split; [done|]. intros i c Hi.
    destruct (Hstep i c Hi) as (c1 & Hi1 & Hp1).
    destruct (Hrun i c1 Hi1) as (c2 & Hi2 & Hp2).
    exists c2. split; [done|]. rewrite Hp2, Hp1.
    unfold times_scheduled. rewrite filter_cons.
    case_decide; simpl; lia.
Qed.
End Interleaving.

(** C9, as claimed, fails: the Chess Club of the seed registry has 10 free
    places; when 11 calls with distinct e-mails run one after the other,
    which is one of the interleavings, all 11 succeed and the roster has 13
    members for a capacity of 12. *)
Lemma chess_rush_overruns :
  let w := run_schedule (sequential 11)
             (mkWorld (map (new_call "Chess Club") chess_rush) activities) in
  (∃ a0, activities !! "Chess Club" = Some a0 ∧
         max_participants a0 - Z.of_nat (length (participants a0)) = 10) ∧
  length chess_rush = 11%nat ∧
  length (filter (λ c, succeeded c = true) (calls w)) = 11%nat ∧
  (∃ a, shared w !! "Chess Club" = Some a ∧
        max_participants a = 12 ∧ length (participants a) = 13%nat).
Proof.
  split_and!.
  - eexists. split; [vm_compute; reflexivity|]. reflexivity.
  - reflexivity.
  - vm_compute. reflexivity.
  - eexists. split; [vm_compute; reflexivity|]. split; reflexivity.
Qed.

(** C9, amended: for an activity of the registry and any number of concurrent
    signup calls with distinct e-mails that are not on its roster, at every
    interleaving of their steps each call that has finished has returned its
    confirmation (none fails, and no outcome reports a full roster), the
    capacity is unchanged and the roster is the initial one plus the e-mails
    appended so far. Once every call has been scheduled three times all of
    them have succeeded and the roster has grown by the number of calls,
    whatever [max_participants] is. *)
Theorem concurrent_signups_all_succeed
    (acts : gmap string Activity) (name : string) (a0 : Activity)
    (emails : list string) (sched : list nat) :
  acts !! name = Some a0 →
  NoDup emails →
  (∀ e, e ∈ emails → e ∉ participants a0) →
  let w := run_schedule sched (mkWorld (map (new_call name) emails) acts) in
  (∀ c o, c ∈ calls w → call_pc c = Finished o →
     o = Return ("Signed up " +:+ call_email c +:+ " for " +:+ name)) ∧
  (∃ a, shared w !! name = Some a ∧
        max_participants a = max_participants a0 ∧
        participants a ≡ₚ participants a0 ++ appended (calls w)) ∧
  ((∀ i, (i < length emails)%nat → (3 ≤ times_scheduled i sched)%nat) →
     Forall (λ c, succeeded c = true) (calls w) ∧
     ∃ a, shared w !! name = Some a ∧
          length (participants a) = (length (participants a0) + length emails)%nat).
Proof.
  intros Ha Hnd Hfresh w.
  destruct (run_schedule_inv name a0 emails Hnd Hfresh sched _
              (signup_inv_start name a0 emails acts Ha)) as [Hinv Hrun].
  fold w in Hinv, Hrun. destruct Hinv as (Hlen & Hcalls & a & Hla & Hmax & Hperm).
  assert (Hret : ∀ c o, c ∈ calls w → call_pc c = Finished o →
     o = Return ("Signed up " +:+ call_email c +:+ " for " +:+ name)).
  { intros c o [i Hi]%list_elem_of_lookup Hpc.
    destruct (Hcalls i c Hi) as (_ & _ & Hfin).
    rewrite Hpc in Hfin. unfold is_finished in Hfin. rewrite Hpc in Hfin.
    specialize (Hfin eq_refl). by injection Hfin. }
  split_and!; [done | by exists a |].
  intros Hfair.
  assert (Hall : Forall (λ c, succeeded c = true) (calls w)).
  { apply Forall_lookup. intros i c Hi.
    assert (Hlt : (i < length emails)%nat) by (rewrite <- Hlen; by eapply lookup_lt_Some).
    destruct (lookup_lt_is_Some_2 emails i Hlt) as [e He].
    assert (H0 : calls (mkWorld (map (new_call name) emails) acts) !! i
                 = Some (new_call name e)).
    { simpl. by rewrite list_lookup_fmap, He. }
    destruct (Hrun i _ H0) as (c' & Hi' & Hp).
    assert (c' = c) as -> by congruence.
    specialize (Hfair i Hlt). simpl in Hp.
    unfold succeeded. unfold progress in Hp.
    destruct (call_pc c) as [| | |o] eqn:Hpc; try lia.
    by rewrite (Hret c o (list_elem_of_lookup_2 _ _ _ Hi) Hpc). }
  split; [done|]. exists a. split; [done|].
  rewrite Hperm, length_app, (appended_all_succeeded _ Hall), length_map. lia.
Qed.

Lemma concurrent_signups_all_succeed_witness :
  let w := run_schedule [0; 1; 0; 1; 1; 0]%nat
             (mkWorld (map (new_call "Chess Club") [student "s01"; student "s02"])
                      activities) in
  Forall (λ c, succeeded c = true) (calls w) ∧
  ∃ a, shared w !! "Chess Club" = Some a ∧ length (participants a) = 4%nat.
Proof.
  refine ((λ H, proj2 (proj2 H) _)
    (concurrent_signups_all_succeed activities "Chess Club"
       (seed_activity "Learn strategies and compete in chess tournaments"
          "Fridays, 3:30 PM - 5:00 PM" 12
          "michael@mergington.edu" "daniel@mergington.edu")
       [student "s01"; student "s02"] [0; 1; 0; 1; 1; 0]%nat _ _ _)).
  - intros i Hi. simpl in Hi.
    destruct i as [|[|i]]; [vm_compute; lia | vm_compute; lia | lia].
  - vm_compute. reflexivity.
  - apply NoDup_cons. split; [|apply NoDup_singleton].
    intros H%py_in_true. discriminate H.
  - intros e He. apply py_in_false.
    apply list_elem_of_In in He. simpl in He.
    destruct He as [<-|[<-|[]]]; reflexivity.
Defined.

(** ** Rosters hold no duplicates *)

Lemma py_remove_NoDup (x : string) (l r : list string) :
  py_remove x l = Some r → NoDup l → NoDup r.
Proof.
  intros Hrm Hnd.
  assert (Hx : x ∈ l).
  { destruct (decide (x ∈ l)) as [|Hn]; [done|].
    by rewrite (py_remove_absent _ _ Hn) in Hrm. }
  destruct (py_remove_member _ _ Hx) as (l1 & l2 & -> & _ & Hrm').
  rewrite Hrm' in Hrm. injection Hrm as <-.
  apply NoDup_app in Hnd as (H1 & H12 & H2).
  apply NoDup_cons in H2 as [_ H2].
  apply NoDup_app. split_and!; [done | | done].
  intros y Hy Hy'. apply (H12 y Hy). apply elem_of_cons. by right.
Qed.

Lemma handle_NoDup (r : Request) (acts : gmap string Activity) :
  (∀ name a, acts !! name = Some a → NoDup (participants a)) →
  ∀ name a, registry (handle r acts) !! name = Some a → NoDup (participants a).
Proof.
  intros Hacts name a. destruct r as [n e|n e]; simpl.
  - unfold signup_for_activity. destruct (acts !! n) as [b|] eqn:Hb; simpl; [|apply Hacts].
    destruct (py_in e (participants b)) eqn:Hin; simpl; [apply Hacts|].
    destruct (decide (n = name)) as [->|Hne].
    + rewrite lookup_insert_eq. intros [= <-]. simpl. unfold py_append.
      apply NoDup_app. split_and!; [by apply (Hacts name) | | apply NoDup_singleton].
      intros y Hy ->%list_elem_of_singleton. by apply py_in_false in Hin.
    + rewrite lookup_insert_ne by done. apply Hacts.
  - unfold unregister_from_activity.
    destruct (acts !! n) as [b|] eqn:Hb; simpl; [|apply Hacts].
    destruct (py_in e (participants b)); simpl; [|apply Hacts].
    destruct (py_remove e (participants b)) as [ps|] eqn:Hrm; simpl; [|apply Hacts].
    destruct (decide (n = name)) as [->|Hne].
    + rewrite lookup_insert_eq. intros [= <-]. simpl.
      apply (py_remove_NoDup e (participants b)); [done | by apply (Hacts name)].
    + rewrite lookup_insert_ne by done. apply Hacts.
Qed.

(** Whatever requests were served since the start, no roster lists an e-mail
    twice. *)
Lemma serve_NoDup (rs : list Request) (name : string) (a : Activity) :
  serve rs activities !! name = Some a → NoDup (participants a).
Proof.
  assert (Hgen : ∀ acts, (∀ n b, acts !! n = Some b → NoDup (participants b)) →
                 ∀ n b, serve rs acts !! n = Some b → NoDup (participants b)).
  { induction rs as [|r rs IH]; intros acts Hacts; simpl; [done|].
    apply IH. by apply handle_NoDup. }
  apply Hgen. intros n b Hb. unfold activities in Hb.
  repeat (apply lookup_insert_Some in Hb as [[_ <-]|[_ Hb]];
    [simpl; apply NoDup_cons; split;
       [by intros H%py_in_true | apply NoDup_singleton]|]).
  by rewrite lookup_empty in Hb.
Qed.

(** * Further properties of the handlers *)

(** ** What a request leaves alone *)

Lemma handle_lookup (r : Request) (acts : gmap string Activity) (n : string) (a' : Activity) :
  registry (handle r acts) !! n = Some a' →
  ∃ a, acts !! n = Some a ∧
       description a' = description a ∧ schedule a' = schedule a ∧
       location a' = location a ∧ max_participants a' = max_participants a ∧
       (n ≠ request_activity r → a' = a).
Proof.
  destruct r as [m e|m e]; simpl.
  - unfold signup_for_activity. destruct (acts !! m) as [b|] eqn:Hb; simpl.
    2:{ intros H. exists a'. by split_and!. }
    destruct (py_in e (participants b)); simpl.
    { intros H. exists a'. by split_and!. }
    destruct (decide (m = n)) as [->|Hne].
    + rewrite lookup_insert_eq. intros [= <-]. exists b. by split_and!.
    + rewrite lookup_insert_ne by done. intros H. exists a'. by split_and!.
  - unfold unregister_from_activity. destruct (acts !! m) as [b|] eqn:Hb; simpl.
    2:{ intros H. exists a'. by split_and!. }
    destruct (py_in e (participants b)); simpl.
    2:{ intros H. exists a'. by split_and!. }
    destruct (py_remove e (participants b)); simpl.
    2:{ intros H. exists a'. by split_and!. }
    destruct (decide (m = n)) as [->|Hne].
    + rewrite lookup_insert_eq. intros [= <-]. exists b. by split_and!.
    + rewrite lookup_insert_ne by done. intros H. exists a'. by split_and!.
Qed.

Lemma handle_dom (r : Request) (acts : gmap string Activity) :
  dom (registry (handle r acts)) = dom acts.
Proof.
  assert (Hins : ∀ n (b b' : Activity), acts !! n = Some b →
            dom (<[n := b']> acts) = dom acts).
  { intros n b b' Hb. rewrite dom_insert_L.
    assert (Hn : n ∈ dom acts) by (apply elem_of_dom; eauto).
    apply set_eq. intros x. rewrite elem_of_union, elem_of_singleton.
    split; [intros [->|]; done | by right]. }
  destruct r as [m e|m e]; simpl.
  - unfold signup_for_activity. destruct (acts !! m) as [b|] eqn:Hb; simpl; [|done].
    destruct (py_in e (participants b)); simpl; [done|]. by apply (Hins m b).
  - unfold unregister_from_activity. destruct (acts !! m) as [b|] eqn:Hb; simpl; [|done].
    destruct (py_in e (participants b)); simpl; [|done].
    destruct (py_remove e (participants b)); simpl; [|done]. by apply (Hins m b).
Qed.

(** X1: whatever requests are served, the registry keeps exactly its activity
    names, every activity keeps its description, schedule, location and
    capacity, and an activity that no request addresses is untouched. *)
Theorem serve_frame (rs : list Request) (acts : gmap string Activity) :
  dom (serve rs acts) = dom acts ∧
  ∀ n a', serve rs acts !! n = Some a' →
    ∃ a, acts !! n = Some a ∧
         description a' = description a ∧ schedule a' = schedule a ∧
         location a' = location a ∧ max_participants a' = max_participants a ∧
         (n ∉ map request_activity rs → a' = a).
Proof.
  revert acts. induction rs as [|r rs IH]; intros acts; simpl.
  - split; [done|]. intros n a' H. exists a'. by split_and!.
  - destruct (IH (registry (handle r acts))) as [Hdom Hl]. split.
    + by rewrite Hdom, handle_dom.
    + intros n a' H. destruct (Hl n a' H) as (a1 & H1 & Hd1 & Hs1 & Hl1 & Hm1 & Hsame1).
      destruct (handle_lookup r acts n a1 H1) as (a & Ha & Hd & Hs & Hlo & Hm & Hsame).
      exists a. split_and!; try congruence.
      intros Hn. apply not_elem_of_cons in Hn as [Hne Hn].
      rewrite (Hsame1 Hn). by apply Hsame.
Qed.

Lemma serve_frame_witness :
  serve [Signup "Chess Club" "new@mergington.edu";
         Unregister "Chess Club" "daniel@mergington.edu"] activities !! "Math Club" =
  activities !! "Math Club".
Proof.
  destruct (serve_frame [Signup "Chess Club" "new@mergington.edu";
                         Unregister "Chess Club" "daniel@mergington.edu"] activities)
    as [_ H].
  destruct (H "Math Club"
    (seed_activity "Solve challenging problems and participate in math competitions"
       "Tuesdays, 3:30 PM - 4:30 PM" 10
       "james@mergington.edu" "benjamin@mergington.edu"))
    as (a & Ha & _ & _ & _ & _ & Hsame); [vm_compute; reflexivity|].
  rewrite Ha. rewrite <- Hsame; [vm_compute; reflexivity|].
  intros Hin. apply list_elem_of_In in Hin. simpl in Hin.
  destruct Hin as [Hin|[Hin|[]]]; discriminate Hin.
Defined.

(** ** Outcomes and notifications *)

(** X2: a handler call queues a notification exactly when it succeeds: on
    success there is one task, addressed to the e-mail of the request, whose
    subject ends with the activity name, and the registry has changed; on
    failure no task is queued and the registry is the same. *)
Theorem notification_iff_success (r : Request) (acts : gmap string Activity) :
  let resp := handle r acts in
  (is_return (outcome resp) = true →
     (∃ t, tasks resp = [t] ∧ to_email t = request_email r ∧
           ∃ pre, subject t = pre +:+ request_activity r) ∧
     registry resp ≠ acts) ∧
  (is_return (outcome resp) = false → tasks resp = [] ∧ registry resp = acts).
Proof.
  assert (Hneq : ∀ n (b : Activity) ps, acts !! n = Some b →
            length ps ≠ length (participants b) →
            <[n := set_participants b ps]> acts ≠ acts).
  { intros n b ps Hb Hlen Heq.
    assert (H : <[n := set_participants b ps]> acts !! n = Some b) by (by rewrite Heq).
    rewrite lookup_insert_eq in H. injection H as Hb'.
    apply (f_equal participants) in Hb'. simpl in Hb'. by subst ps. }
  destruct r as [m e|m e]; simpl.
  - unfold signup_for_activity. destruct (acts !! m) as [b|] eqn:Hb; simpl; [|done].
    destruct (py_in e (participants b)); simpl; [done|]. split; [|done].
    intros _. split; [by eauto|]. apply Hneq; [done|].
    unfold py_append. rewrite length_app. simpl. lia.
  - unfold unregister_from_activity. destruct (acts !! m) as [b|] eqn:Hb; simpl; [|done].
    destruct (py_in e (participants b)); simpl; [|done].
    destruct (py_remove e (participants b)) as [ps|] eqn:Hrm; simpl; [|done].
    split; [|done]. intros _. split; [by eauto|]. apply Hneq; [done|].
    apply py_remove_length in Hrm. lia.
Qed.

Lemma notification_iff_success_witness :
  tasks (handle (Unregister "Chess Club" "stranger@mergington.edu") activities) = [] ∧
  ∃ t, tasks (handle (Unregister "Chess Club" "daniel@mergington.edu") activities) = [t] ∧
       to_email t = "daniel@mergington.edu".
Proof.
  split.
  - apply (notification_iff_success
             (Unregister "Chess Club" "stranger@mergington.edu") activities).
    vm_compute. reflexivity.
  - destruct (notification_iff_success
                (Unregister "Chess Club" "daniel@mergington.edu") activities) as [H _].
    destruct H as [(t & Ht & Hto & _) _]; [vm_compute; reflexivity|].
    exists t. split; [exact Ht | exact Hto].
Defined.

(** X3: a handler call that is served on its own, with no other call running
    between its tests and its mutation of the registry, ends in its
    confirmation, in the 404 exception or in a 400 exception, never in an
    uncaught Python exception: [list.remove] then finds the e-mail that the
    membership test of unregister has just found. The 404 is raised exactly
    for a name that is not in the registry. *)
Theorem handlers_never_crash (r : Request) (acts : gmap string Activity) :
  let o := outcome (handle r acts) in
  (∀ exc, o ≠ Uncaught exc) ∧
  (∀ e, o = Raise e → status_code e = 404 ∨ status_code e = 400) ∧
  (o = Raise (mkHTTPException 404 "Activity not found") ↔
     acts !! request_activity r = None).
Proof.
  destruct r as [m e|m e]; simpl.
  - unfold signup_for_activity. destruct (acts !! m) as [b|] eqn:Hb; simpl.
    + destruct (py_in e (participants b)); simpl.
      * split_and!; [done | intros ? [= <-]; by right | done].
      * split_and!; [done | done | done].
    + split_and!; [done | intros ? [= <-]; by left | done].
  - unfold unregister_from_activity. destruct (acts !! m) as [b|] eqn:Hb; simpl.
    + destruct (py_in e (participants b)) eqn:Hin; simpl.
      * apply py_in_true in Hin.
        destruct (py_remove_member _ _ Hin) as (l1 & l2 & _ & _ & ->). simpl.
        split_and!; [done | done | done].
      * split_and!; [done | intros ? [= <-]; by right | done].
    + split_and!; [done | intros ? [= <-]; by left | done].
Qed.

Lemma handlers_never_crash_witness :
  outcome (handle (Unregister "Nonexistent Club" "a@b.edu") activities) =
    Raise (mkHTTPException 404 "Activity not found").
Proof.
  apply (handlers_never_crash (Unregister "Nonexistent Club" "a@b.edu") activities).
  vm_compute. reflexivity.
Defined.

(** ** Rosters along request sequences *)

(** X4: if no roster of a registry lists an e-mail twice, then none does
    after any sequence of requests: signup appends only an absent e-mail and
    unregister only removes. The seed registry is such a registry. *)
Theorem rosters_stay_duplicate_free (rs : list Request) (acts : gmap string Activity) :
  (∀ n b, acts !! n = Some b → NoDup (participants b)) →
  ∀ n b, serve rs acts !! n = Some b → NoDup (participants b).
Proof.
  revert acts. induction rs as [|r rs IH]; intros acts Hacts; simpl; [done|].
  apply IH. by apply handle_NoDup.
Qed.

Lemma rosters_stay_duplicate_free_witness :
  ∃ b, serve chess_overbooking activities !! "Chess Club" = Some b ∧
       NoDup (participants b).
Proof.
  eexists. split; [vm_compute; reflexivity|].
  apply (rosters_stay_duplicate_free chess_overbooking activities
           (serve_NoDup []) "Chess Club").
  vm_compute. reflexivity.
Defined.

Lemma handle_size (r : Request) (acts : gmap string Activity) (name : string) (a : Activity) :
  acts !! name = Some a →
  ∃ a', registry (handle r acts) !! name = Some a' ∧
        Z.of_nat (length (participants a')) =
          Z.of_nat (length (participants a)) + net_enrollments name [r] acts.
Proof.
  intros Ha. unfold net_enrollments.
  destruct r as [m e|m e]; simpl.
  - unfold signup_for_activity. destruct (acts !! m) as [b|] eqn:Hb; simpl.
    2:{ exists a. split; [done|]. rewrite andb_false_r. lia. }
    destruct (py_in e (participants b)); simpl.
    { exists a. split; [done|]. rewrite andb_false_r. lia. }
    destruct (String.eqb_spec m name) as [->|Hne]; simpl.
    + rewrite lookup_insert_eq. eexists. split; [done|]. simpl.
      assert (b = a) as -> by congruence.
      unfold py_append. rewrite length_app. simpl. lia.
    + rewrite lookup_insert_ne by done. exists a. split; [done|]. lia.
  - unfold unregister_from_activity. destruct (acts !! m) as [b|] eqn:Hb; simpl.
    2:{ exists a. split; [done|]. rewrite andb_false_r. lia. }
    destruct (py_in e (participants b)); simpl.
    2:{ exists a. split; [done|]. rewrite andb_false_r. lia. }
    destruct (py_remove e (participants b)) as [ps|] eqn:Hrm; simpl.
    2:{ exists a. split; [done|]. rewrite andb_false_r. lia. }
    destruct (String.eqb_spec m name) as [->|Hne]; simpl.
    + rewrite lookup_insert_eq. eexists. split; [done|]. simpl.
      assert (b = a) as -> by congruence.
      apply py_remove_length in Hrm. lia.
    + rewrite lookup_insert_ne by done. exists a. split; [done|]. lia.
Qed.

(** X5: along any sequence of requests the size of a roster is its initial
    size plus the number of successful signups for the activity minus the
    number of successful unregistrations from it; failed requests and
    requests for other activities do not count. *)
Theorem roster_size_accounting
    (rs : list Request) (acts : gmap string Activity) (name : string) (a : Activity) :
  acts !! name = Some a →
  ∃ a', serve rs acts !! name = Some a' ∧
        Z.of_nat (length (participants a')) =
          Z.of_nat (length (participants a)) + net_enrollments name rs acts.
Proof.
  revert acts a. induction rs as [|r rs IH]; intros acts a Ha.
  - exists a. split; [done|]. simpl. lia.
  - destruct (handle_size r acts name a Ha) as (a1 & H1 & Hl1).
    destruct (IH _ a1 H1) as (a' & H' & Hl').
    exists a'. split; [done|].
    change (net_enrollments name (r :: rs) acts)
      with ((if String.eqb (request_activity r) name && is_return (outcome (handle r acts))
             then match r with Signup _ _ => 1 | Unregister _ _ => -1 end
             else 0) + net_enrollments name rs (registry (handle r acts))).
    simpl in Hl1. lia.
Qed.

Lemma roster_size_accounting_witness :
  ∃ a', serve [Signup "Chess Club" "new@mergington.edu";
               Signup "Chess Club" "new@mergington.edu";
               Unregister "Chess Club" "michael@mergington.edu";
               Unregister "Math Club" "james@mergington.edu";
               Signup "Chess Club" "other@mergington.edu"] activities !! "Chess Club"
        = Some a' ∧
        Z.of_nat (length (participants a')) = 3.
Proof.
  destruct (roster_size_accounting
    [Signup "Chess Club" "new@mergington.edu";
     Signup "Chess Club" "new@mergington.edu";
     Unregister "Chess Club" "michael@mergington.edu";
     Unregister "Math Club" "james@mergington.edu";
     Signup "Chess Club" "other@mergington.edu"] activities "Chess Club"
    (seed_activity "Learn strategies and compete in chess tournaments"
       "Fridays, 3:30 PM - 5:00 PM" 12
       "michael@mergington.edu" "daniel@mergington.edu"))
    as (a' & Ha' & Hl); [vm_compute; reflexivity|].
  exists a'. split; [exact Ha'|]. rewrite Hl. vm_compute. reflexivity.
Defined.

Lemma unregister_member_registry
    (acts : gmap string Activity) (name email : string) (a : Activity) :
  acts !! name = Some a → email ∈ participants a →
  ∃ l1 l2, participants a = l1 ++ (email :: l2) ∧
    registry (unregister_from_activity name email acts) =
      <[name := set_participants a (l1 ++ l2)]> acts.
Proof.
  intros Ha Hin. destruct (unregister_member _ _ _ _ Ha Hin) as (l1 & l2 & Heq & _ & Hr).
  exists l1, l2. split; [done|]. by rewrite Hr.
Qed.

(** ** What holds after a call, whatever its outcome *)

(** X6: after a signup call for an activity of the registry the e-mail is on
    its roster, whether the call succeeded or was rejected as a duplicate;
    the roster is the old one, or the old one with the e-mail at its end. *)
Theorem signup_postcondition
    (acts : gmap string Activity) (name email : string) (a : Activity) :
  acts !! name = Some a →
  let acts' := registry (signup_for_activity name email acts) in
  enrolled name email acts' ∧
  ∃ a', acts' !! name = Some a' ∧
        (participants a' = participants a ∨
         participants a' = participants a ++ [email]).
Proof.
  intros Ha acts'. subst acts'.
  destruct (decide (email ∈ participants a)) as [Hin|Hin].
  - rewrite (signup_member _ _ _ _ Ha Hin). simpl.
    split; [by exists a|]. exists a. split; [done | by left].
  - rewrite (signup_fresh _ _ _ _ Ha Hin). simpl. rewrite lookup_insert_eq. split.
    + eexists. rewrite lookup_insert_eq. split; [done|]. simpl.
      apply elem_of_app. right. by apply list_elem_of_singleton.
    + eexists. split; [done|]. by right.
Qed.

Lemma signup_postcondition_witness :
  enrolled "Chess Club" "daniel@mergington.edu"
    (registry (signup_for_activity "Chess Club" "daniel@mergington.edu" activities)) ∧
  enrolled "Chess Club" "new@mergington.edu"
    (registry (signup_for_activity "Chess Club" "new@mergington.edu" activities)).
Proof.
  split;
    refine (proj1 (signup_postcondition activities "Chess Club" _
      (seed_activity "Learn strategies and compete in chess tournaments"
         "Fridays, 3:30 PM - 5:00 PM" 12
         "michael@mergington.edu" "daniel@mergington.edu") _));
    vm_compute; reflexivity.
Defined.

(** X7: after an unregister call on a roster without duplicates the e-mail is
    not on the roster, whether the call succeeded or not, and every further
    unregister call for it raises the 400 "Student is not signed up for this
    activity" exception and changes nothing. *)
Theorem unregister_postcondition
    (acts : gmap string Activity) (name email : string) (a : Activity) (n : nat) :
  acts !! name = Some a → NoDup (participants a) →
  let acts' := registry (unregister_from_activity name email acts) in
  ¬ enrolled name email acts' ∧
  outcomes (replicate n (Unregister name email)) acts' =
    replicate n (Raise (mkHTTPException 400 "Student is not signed up for this activity")) ∧
  serve (replicate n (Unregister name email)) acts' = acts'.
Proof.
  intros Ha Hnd acts'.
  assert (Hout : ∃ b, acts' !! name = Some b ∧ email ∉ participants b).
  { subst acts'. destruct (decide (email ∈ participants a)) as [Hin|Hin].
    - destruct (unregister_member_registry acts name email a Ha Hin)
        as (l1 & l2 & Heq & Hr).
      rewrite Hr, lookup_insert_eq. eexists. split; [done|]. simpl.
      rewrite Heq in Hnd. apply NoDup_app in Hnd as (_ & H12 & Hnd).
      apply NoDup_cons in Hnd as [Hl2 _].
      intros [H|H]%elem_of_app; [|done]. apply (H12 email H). apply elem_of_cons. by left.
    - rewrite (unregister_stranger _ _ _ _ Ha Hin). simpl. by exists a. }
  destruct Hout as (b & Hb & Hnb). split.
  - intros (b' & Hb' & Hin). congruence.
  - induction n as [|n [IHo IHs]]; [done|]. simpl.
    rewrite (unregister_stranger _ _ _ _ Hb Hnb). simpl. by rewrite IHo, IHs.
Qed.

Lemma unregister_postcondition_witness :
  outcomes (replicate 2 (Unregister "Chess Club" "michael@mergington.edu"))
    (registry (unregister_from_activity "Chess Club" "michael@mergington.edu" activities)) =
  replicate 2 (Raise (mkHTTPException 400 "Student is not signed up for this activity")).
Proof.
  refine (proj1 (proj2 (unregister_postcondition activities "Chess Club"
    "michael@mergington.edu"
    (seed_activity "Learn strategies and compete in chess tournaments"
       "Fridays, 3:30 PM - 5:00 PM" 12
       "michael@mergington.edu" "daniel@mergington.edu") 2 _ _))).
  - vm_compute. reflexivity.
  - apply NoDup_cons. split; [|apply NoDup_singleton].
    intros H%py_in_true. discriminate H.
Defined.

(** X8: unregistering a member and signing the same e-mail up again does not
    give the roster back: the e-mail moves to the end. On a roster that lists
    the e-mail once, both calls succeed, the roster becomes the members before
    it, the members after it, then the e-mail, and the registry is the one
    from before exactly when the e-mail was already the last member. *)
Theorem unregister_then_signup_moves_last
    (acts : gmap string Activity) (name email : string) (a : Activity)
    (l1 l2 : list string) :
  acts !! name = Some a →
  participants a = l1 ++ (email :: l2) → email ∉ l1 → email ∉ l2 →
  let r1 := unregister_from_activity name email acts in
  let r2 := signup_for_activity name email (registry r1) in
  is_return (outcome r1) = true ∧ is_return (outcome r2) = true ∧
  registry r2 = <[name := set_participants a (l1 ++ l2 ++ [email])]> acts ∧
  (registry r2 = acts ↔ l2 = []).
Proof.
  intros Ha Heq Hl1 Hl2 r1 r2.
  assert (Hin : email ∈ participants a).
  { rewrite Heq. apply elem_of_app. right. apply elem_of_cons. by left. }
  destruct (unregister_member _ _ _ _ Ha Hin) as (k1 & k2 & Heq' & Hk1 & Hr1).
  assert (k1 = l1 ∧ k2 = l2) as [-> ->].
  { rewrite Heq in Heq'. clear -Heq' Hl1 Hk1.
    revert k1 Heq' Hk1. induction l1 as [|x l1 IH]; intros [|y k1] Heq' Hk1; simpl in *.
    - injection Heq' as ->. done.
    - injection Heq' as -> _. by apply not_elem_of_cons in Hk1 as [? _].
    - injection Heq' as -> _. by apply not_elem_of_cons in Hl1 as [? _].
    - injection Heq' as -> Heq'. apply not_elem_of_cons in Hl1 as [_ Hl1].
      apply not_elem_of_cons in Hk1 as [_ Hk1].
      destruct (IH Hl1 k1 Heq' Hk1) as [-> ->]. done. }
  assert (Hfresh : email ∉ participants (set_participants a (l1 ++ l2))).
  { simpl. intros [H|H]%elem_of_app; done. }
  assert (Hr2 : r2 = signup_for_activity name email
                       (<[name := set_participants a (l1 ++ l2)]> acts)).
  { subst r2 r1. by rewrite Hr1. }
  rewrite (signup_fresh name email _ (set_participants a (l1 ++ l2))) in Hr2
    by (by rewrite ?lookup_insert_eq).
  assert (Hreg : registry r2 = <[name := set_participants a (l1 ++ l2 ++ [email])]> acts).
  { rewrite Hr2. simpl. rewrite insert_insert_eq.
    by rewrite set_participants_twice, <- (assoc_L (++)). }
  split_and!.
  - subst r1. by rewrite Hr1.
  - by rewrite Hr2.
  - done.
  - rewrite Hreg. split.
    + intros H. assert (H' : <[name := set_participants a (l1 ++ l2 ++ [email])]> acts !! name
                            = Some a) by (by rewrite H).
      rewrite lookup_insert_eq in H'. injection H' as H'.
      apply (f_equal participants) in H'. simpl in H'. rewrite Heq in H'.
      apply app_inv_head in H'. destruct l2 as [|y l2]; [done|].
      injection H' as -> _. by apply not_elem_of_cons in Hl2 as [? _].
    + intros ->. rewrite app_nil_l. rewrite <- Heq, set_participants_same.
      by apply insert_id.
Qed.

Lemma unregister_then_signup_moves_last_witness :
  registry (signup_for_activity "Chess Club" "michael@mergington.edu"
    (registry (unregister_from_activity "Chess Club" "michael@mergington.edu" activities)))
  !! "Chess Club" =
  Some (mkActivity "Learn strategies and compete in chess tournaments"
          (Some "Fridays, 3:30 PM - 5:00 PM") None 12
          ["daniel@mergington.edu"; "michael@mergington.edu"]).
Proof.
  pose proof (unregister_then_signup_moves_last activities "Chess Club"
    "michael@mergington.edu"
    (seed_activity "Learn strategies and compete in chess tournaments"
       "Fridays, 3:30 PM - 5:00 PM" 12
       "michael@mergington.edu" "daniel@mergington.edu")
    [] ["daniel@mergington.edu"]) as H.
  destruct H as (_ & _ & Hreg & _).
  - vm_compute. reflexivity.
  - reflexivity.
  - apply not_elem_of_nil.
  - apply py_in_false. reflexivity.
  - rewrite Hreg, lookup_insert_eq. reflexivity.
Defined.

(** ** How requests compose *)

(** A call reads and writes only the entry of the activity it addresses. *)
Lemma handle_local (r : Request) (acts acts' : gmap string Activity) :
  acts' !! request_activity r = acts !! request_activity r →
  outcome (handle r acts') = outcome (handle r acts) ∧
  tasks (handle r acts') = tasks (handle r acts) ∧
  ((registry (handle r acts) = acts ∧ registry (handle r acts') = acts') ∨
   ∃ b, registry (handle r acts) = <[request_activity r := b]> acts ∧
        registry (handle r acts') = <[request_activity r := b]> acts').
Proof.
  destruct r as [m e|m e]; simpl; intros H.
  - unfold signup_for_activity. rewrite H. destruct (acts !! m) as [b|]; simpl.
    + destruct (py_in e (participants b)); simpl.
      * split_and!; [done | done | by left].
      * split_and!; [done | done | right; by eexists].
    + split_and!; [done | done | by left].
  - unfold unregister_from_activity. rewrite H. destruct (acts !! m) as [b|]; simpl.
    + destruct (py_in e (participants b)); simpl.
      * destruct (py_remove e (participants b)); simpl.
        -- split_and!; [done | done | right; by eexists].
        -- split_and!; [done | done | by left].
      * split_and!; [done | done | by left].
    + split_and!; [done | done | by left].
Qed.

Lemma handle_other (r : Request) (acts : gmap string Activity) (n : string) :
  n ≠ request_activity r → registry (handle r acts) !! n = acts !! n.
Proof.
  intros Hne. destruct (handle_local r acts acts eq_refl) as (_ & _ & [[-> _]|(b & -> & _)]);
    [done|]. by rewrite lookup_insert_ne.
Qed.

(** X9: two requests that address different activities are independent:
    served in either order they leave the same registry, and each has the
    outcome and queues the notification it would have had alone. *)
Theorem requests_on_different_activities_commute
    (r1 r2 : Request) (acts : gmap string Activity) :
  request_activity r1 ≠ request_activity r2 →
  serve [r1; r2] acts = serve [r2; r1] acts ∧
  outcomes [r1; r2] acts = [outcome (handle r1 acts); outcome (handle r2 acts)] ∧
  tasks (handle r2 (registry (handle r1 acts))) = tasks (handle r2 acts) ∧
  tasks (handle r1 (registry (handle r2 acts))) = tasks (handle r1 acts).
Proof.
  intros Hne.
  assert (H21 : registry (handle r1 acts) !! request_activity r2
                = acts !! request_activity r2) by (by apply handle_other).
  assert (H12 : registry (handle r2 acts) !! request_activity r1
                = acts !! request_activity r1) by (by apply handle_other).
  destruct (handle_local r2 acts _ H21) as (Ho2 & Ht2 & Hr2).
  destruct (handle_local r1 acts _ H12) as (Ho1 & Ht1 & Hr1).
  split_and!; [| by simpl; rewrite Ho2 | done | done].
  simpl.
  destruct Hr2 as [[E2 E2']|(b2 & E2 & E2')]; destruct Hr1 as [[E1 E1']|(b1 & E1 & E1')];
    rewrite E2', E1'; rewrite ?E1, ?E2; try done.
  by apply insert_insert_ne.
Qed.

Lemma requests_on_different_activities_commute_witness :
  serve [Signup "Chess Club" "new@mergington.edu";
         Unregister "Math Club" "james@mergington.edu"] activities =
  serve [Unregister "Math Club" "james@mergington.edu";
         Signup "Chess Club" "new@mergington.edu"] activities.
Proof.
  apply (requests_on_different_activities_commute
           (Signup "Chess Club" "new@mergington.edu")
           (Unregister "Math Club" "james@mergington.edu") activities).
  simpl. intros H. discriminate H.
Defined.

(** X10: the roster keeps the order of signing up: when distinct e-mails that
    are not on the roster sign up one after the other, every call succeeds
    and the roster is the old one followed by the e-mails in the order of the
    calls; nothing else in the registry changes. *)
Theorem signups_append_in_order
    (acts : gmap string Activity) (name : string) (a : Activity) (es : list string) :
  acts !! name = Some a →
  NoDup es → (∀ e, e ∈ es → e ∉ participants a) →
  serve (map (Signup name) es) acts =
    <[name := set_participants a (participants a ++ es)]> acts ∧
  Forall (λ o, is_return o = true) (outcomes (map (Signup name) es) acts).
Proof.
  revert acts a. induction es as [|e es IH]; intros acts a Ha Hnd Hfresh; simpl.
  - split; [|done]. rewrite app_nil_r, set_participants_same. by rewrite insert_id.
  - apply NoDup_cons in Hnd as [He Hnd].
    assert (Hea : e ∉ participants a) by (apply Hfresh, elem_of_cons; by left).
    rewrite (signup_fresh _ _ _ _ Ha Hea). simpl.
    destruct (IH (<[name := set_participants a (participants a ++ [e])]> acts)
                 (set_participants a (participants a ++ [e]))) as [Hs Ho].
    + by rewrite lookup_insert_eq.
    + done.
    + intros x Hx. simpl. intros [Hin|Hin%list_elem_of_singleton]%elem_of_app.
      * apply (Hfresh x); [apply elem_of_cons; by right | done].
      * by subst x.
    + split; [|by apply Forall_cons].
      rewrite Hs. simpl. rewrite insert_insert_eq, set_participants_twice.
      by rewrite <- (assoc_L (++)).
Qed.

Lemma signups_append_in_order_witness :
  serve chess_fill activities !! "Chess Club" =
  Some (mkActivity "Learn strategies and compete in chess tournaments"
          (Some "Fridays, 3:30 PM - 5:00 PM") None 12
          (["michael@mergington.edu"; "daniel@mergington.edu"] ++
           map student ["s01"; "s02"; "s03"; "s04"; "s05"; "s06"; "s07"; "s08"; "s09"; "s10"])).
Proof.
  pose proof (signups_append_in_order activities "Chess Club"
    (seed_activity "Learn strategies and compete in chess tournaments"
       "Fridays, 3:30 PM - 5:00 PM" 12
       "michael@mergington.edu" "daniel@mergington.edu")
    (map student ["s01"; "s02"; "s03"; "s04"; "s05"; "s06"; "s07"; "s08"; "s09"; "s10"]))
    as H.
  destruct H as [Hs _].
  - vm_compute. reflexivity.
  - simpl. repeat (apply NoDup_cons; split; [apply py_in_false; reflexivity|]).
    apply NoDup_nil_2.
  - intros e He. apply py_in_false. apply list_elem_of_In in He. simpl in He.
    repeat (destruct He as [<-|He]; [reflexivity|]). destruct He.
  - change (serve chess_fill activities) with
      (serve (map (Signup "Chess Club")
         (map student ["s01"; "s02"; "s03"; "s04"; "s05"; "s06"; "s07"; "s08"; "s09"; "s10"]))
         activities).
    rewrite Hs, lookup_insert_eq. reflexivity.
Defined.

(** X11: the capacity bound can be lost in one way only. From a registry in
    which every roster is within its capacity, a request leaves some roster
    over its capacity if and only if it is a signup, for an activity of the
    registry whose roster is exactly full, of an e-mail that is not on that
    roster; unregister never breaks the bound. *)
Theorem capacity_lost_only_by_signup_when_full
    (r : Request) (acts : gmap string Activity) :
  within_capacity acts →
  (¬ within_capacity (registry (handle r acts)) ↔
   ∃ n e a, r = Signup n e ∧ acts !! n = Some a ∧ (e ∉ participants a) ∧
            Z.of_nat (length (participants a)) = max_participants a).
Proof.
  intros Hcap.
  assert (Hins : ∀ n (b : Activity) ps, acts !! n = Some b →
            Z.of_nat (length ps) ≤ max_participants b →
            within_capacity (<[n := set_participants b ps]> acts)).
  { intros n b ps Hb Hle m c Hc. destruct (decide (n = m)) as [->|Hne].
    - rewrite lookup_insert_eq in Hc. by injection Hc as <-.
    - rewrite lookup_insert_ne in Hc by done. by apply (Hcap m). }
  split.
  - intros Hbroken. destruct r as [m e|m e]; simpl in Hbroken.
    + unfold signup_for_activity in Hbroken.
      destruct (acts !! m) as [b|] eqn:Hb; simpl in Hbroken; [|done].
      destruct (py_in e (participants b)) eqn:Hin; simpl in Hbroken; [done|].
      exists m, e, b. split_and!; [done | done | by apply py_in_false |].
      pose proof (Hcap m b Hb) as Hle.
      destruct (decide (Z.of_nat (length (participants b)) = max_participants b))
        as [|Hlt]; [done|].
      exfalso. apply Hbroken, Hins; [done|].
      unfold py_append. rewrite length_app. simpl. lia.
    + exfalso. unfold unregister_from_activity in Hbroken.
      destruct (acts !! m) as [b|] eqn:Hb; simpl in Hbroken; [|done].
      destruct (py_in e (participants b)); simpl in Hbroken; [|done].
      destruct (py_remove e (participants b)) as [ps|] eqn:Hrm; simpl in Hbroken; [|done].
      apply Hbroken, Hins; [done|]. pose proof (Hcap m b Hb).
      apply py_remove_length in Hrm. lia.
  - intros (n & e & a & -> & Ha & He & Hfull) Hcap'. simpl in Hcap'.
    rewrite (signup_fresh _ _ _ _ Ha He) in Hcap'. simpl in Hcap'.
    specialize (Hcap' n _ (lookup_insert_eq _ _ _)). simpl in Hcap'.
    rewrite length_app in Hcap'. simpl in Hcap'. lia.
Qed.

Lemma capacity_lost_only_by_signup_when_full_witness :
  within_capacity activities ∧
  within_capacity
    (registry (handle (Signup "Chess Club" "new@mergington.edu") activities)).
Proof.
  assert (Hseed : within_capacity activities).
  { intros n b Hb. unfold activities in Hb.
    repeat (apply lookup_insert_Some in Hb as [[_ <-]|[_ Hb]];
      [vm_compute; intros H; discriminate H|]).
    by rewrite lookup_empty in Hb. }
  split; [exact Hseed|].
  destruct (capacity_lost_only_by_signup_when_full
              (Signup "Chess Club" "new@mergington.edu") activities Hseed) as [Hfwd _].
  intros n b Hb.
  destruct (decide (Z.of_nat (length (participants b)) ≤ max_participants b))
    as [Hle|Hgt]; [exact Hle|].
  exfalso.
  assert (Hbroken : ¬ within_capacity
    (registry (handle (Signup "Chess Club" "new@mergington.edu") activities))).
  { intros Hc. apply Hgt. by apply (Hc n). }
  destruct (Hfwd Hbroken) as (m & e & a & Hr & Ha & _ & Hfull).
  injection Hr as <- <-. vm_compute in Ha. injection Ha as <-.
  vm_compute in Hfull. discriminate Hfull.
Defined.

(** ** Two calls with the same e-mail *)

Lemma step_call_first (c c2 : SignupCall) (acts : gmap string Activity) :
  step_call 0 (mkWorld [c; c2] acts) =
    mkWorld [(signup_step c acts).1; c2] (signup_step c acts).2.
Proof. unfold step_call. simpl. by destruct (signup_step c acts). Qed.

Lemma step_call_second (c1 c : SignupCall) (acts : gmap string Activity) :
  step_call 1 (mkWorld [c1; c] acts) =
    mkWorld [c1; (signup_step c acts).1] (signup_step c acts).2.
Proof. unfold step_call. simpl. by destruct (signup_step c acts). Qed.

(** X12: the membership test and the append are separate steps, so two
    signup calls for the same new e-mail that both test before either
    appends both succeed, and the roster then lists the e-mail twice; served
    one after the other, the second call is rejected instead. *)
Theorem same_email_race_duplicates
    (acts : gmap string Activity) (name email : string) (a : Activity) :
  acts !! name = Some a → email ∉ participants a →
  let w := run_schedule [0; 1; 0; 1; 0; 1]%nat
             (mkWorld [new_call name email; new_call name email] acts) in
  Forall (λ c, call_pc c =
                 Finished (Return ("Signed up " +:+ email +:+ " for " +:+ name)))
         (calls w) ∧
  shared w = <[name := set_participants a (participants a ++ [email; email])]> acts ∧
  ¬ (∀ n b, shared w !! n = Some b → NoDup (participants b)) ∧
  outcomes [Signup name email; Signup name email] acts =
    [Return ("Signed up " +:+ email +:+ " for " +:+ name);
     Raise (mkHTTPException 400 "Student is already signed up")].
Proof.
  intros Ha Hin w.
  assert (Hpy : py_in email (participants a) = false) by (by apply py_in_false).
  assert (Hw : w = mkWorld
    [mkSignupCall name email
       (Finished (Return ("Signed up " +:+ email +:+ " for " +:+ name)))
       [mkTask ("Successfully Registered for " +:+ name)
          (_registration_email_body name
             (set_participants a (participants a ++ [email])) email) email];
     mkSignupCall name email
       (Finished (Return ("Signed up " +:+ email +:+ " for " +:+ name)))
       [mkTask ("Successfully Registered for " +:+ name)
          (_registration_email_body name
             (set_participants a (participants a ++ [email; email])) email) email]]
    (<[name := set_participants a (participants a ++ [email; email])]> acts)).
  { subst w.
    change (run_schedule [0; 1; 0; 1; 0; 1]%nat
              (mkWorld [new_call name email; new_call name email] acts))
      with (step_call 1 (step_call 0 (step_call 1 (step_call 0 (step_call 1 (step_call 0
              (mkWorld [new_call name email; new_call name email] acts))))))).
    rewrite step_call_first. unfold signup_step at 1 2. simpl. rewrite Ha. simpl.
    rewrite step_call_second. unfold signup_step at 1 2. simpl. rewrite Ha. simpl.
    rewrite step_call_first. unfold signup_step at 1 2. simpl. rewrite Ha, Hpy. simpl.
    rewrite step_call_second. unfold signup_step at 1 2. simpl. rewrite Ha, Hpy. simpl.
    rewrite step_call_first. unfold signup_step at 1 2. simpl. rewrite Ha. simpl.
    rewrite step_call_second. unfold signup_step. simpl. rewrite lookup_insert_eq. simpl.
    unfold py_append. simpl.
    by rewrite insert_insert_eq, <- !(assoc_L (++)). }
  rewrite Hw. simpl. split_and!.
  - by repeat constructor.
  - done.
  - intros Hnd. specialize (Hnd name _ (lookup_insert_eq _ _ _)). simpl in Hnd.
    apply NoDup_app in Hnd as (_ & _ & Hnd). apply NoDup_cons in Hnd as [Hnd _].
    apply Hnd. apply elem_of_cons. by left.
  - rewrite (signup_fresh _ _ _ _ Ha Hin). simpl.
    rewrite (signup_member name email _ (set_participants a (participants a ++ [email]))).
    + done.
    + by rewrite lookup_insert_eq.
    + simpl. apply elem_of_app. right. by apply list_elem_of_singleton.
Qed.

Lemma same_email_race_duplicates_witness :
  shared (run_schedule [0; 1; 0; 1; 0; 1]%nat
    (mkWorld [new_call "Chess Club" "new@mergington.edu";
              new_call "Chess Club" "new@mergington.edu"] activities)) !! "Chess Club" =
  Some (mkActivity "Learn strategies and compete in chess tournaments"
          (Some "Fridays, 3:30 PM - 5:00 PM") None 12
          ["michael@mergington.edu"; "daniel@mergington.edu";
           "new@mergington.edu"; "new@mergington.edu"]).
Proof.
  pose proof (same_email_race_duplicates activities "Chess Club" "new@mergington.edu"
    (seed_activity "Learn strategies and compete in chess tournaments"
       "Fridays, 3:30 PM - 5:00 PM" 12
       "michael@mergington.edu" "daniel@mergington.edu")) as H.
  destruct H as (_ & Hs & _).
  - vm_compute. reflexivity.
  - apply py_in_false. reflexivity.
  - rewrite Hs, lookup_insert_eq. reflexivity.
Defined.

(** * Further properties of the notifier *)

(** An SMTP session issues the commands in order up to the first one that
    raises. *)
Lemma smtp_session_cases (transport : SmtpCommand → option string)
    (cmds : list SmtpCommand) :
  (smtp_session transport cmds = (map Smtp cmds, None) ∧
   ∀ c, c ∈ cmds → transport c = None) ∨
  (∃ pre c post exc,
     cmds = pre ++ c :: post ∧
     (∀ c', c' ∈ pre → transport c' = None) ∧
     transport c = Some exc ∧
     smtp_session transport cmds = (map Smtp (pre ++ [c]), Some exc)).
Proof.
  induction cmds as [|c cmds IH]; simpl.
  - left. split; [done|]. by intros c ?%elem_of_nil.
  - destruct (transport c) as [exc|] eqn:Hc.
    + right. exists [], c, cmds, exc. split_and!; [done | | done | done].
      by intros c' ?%elem_of_nil.
    + destruct IH as [[-> Hall]|(pre & d & post & exc & -> & Hpre & Hd & ->)].
      * left. split; [done|]. by intros c' [->|?]%elem_of_cons; [|apply Hall].
      * right. exists (c :: pre), d, post, exc. split_and!; [done | | done | done].
        by intros c' [->|?]%elem_of_cons; [|apply Hpre].
Qed.

Lemma smtp_session_issued (transport : SmtpCommand → option string)
    (cmds : list SmtpCommand) (c : SmtpCommand) :
  Smtp c ∈ (smtp_session transport cmds).1 → c ∈ cmds.
Proof.
  destruct (smtp_session_cases transport cmds)
    as [[-> _]|(pre & d & post & exc & -> & _ & _ & ->)]; simpl.
  - intros (c' & [= <-] & Hc')%list_elem_of_fmap. done.
  - intros (c' & [= <-] & Hc')%list_elem_of_fmap.
    apply elem_of_app in Hc' as [Hc'|Hc'%list_elem_of_singleton]; apply elem_of_app.
    + by left.
    + right. subst. apply elem_of_cons. by left.
Qed.

(** The plan is STARTTLS when TLS is on, a login with the configured
    credentials when both are non-empty, and the message last. *)
Lemma smtp_plan_front (s : EmailSettings) (m : EmailMessage) :
  ∃ front, smtp_plan s m = front ++ [SendMessage m] ∧
    (use_tls s = true → ∃ rest, front = StartTLS :: rest) ∧
    (use_tls s = false → StartTLS ∉ front) ∧
    (∀ c, c ∈ front →
       c = StartTLS ∨
       ∃ u p, c = Login u p ∧
              username s = Some u ∧ password s = Some p ∧ u ≠ "" ∧ p ≠ "").
Proof.
  unfold smtp_plan.
  set (login := match username s, password s with
                | Some u, Some p => if truthy u && truthy p then [Login u p] else []
                | _, _ => []
                end).
  assert (Hlogin : ∀ c, c ∈ login →
            ∃ u p, c = Login u p ∧
                   username s = Some u ∧ password s = Some p ∧ u ≠ "" ∧ p ≠ "").
  { subst login. intros c. destruct (username s) as [u'|]; [|by intros ?%elem_of_nil].
    destruct (password s) as [p'|]; [|by intros ?%elem_of_nil].
    destruct (truthy u') eqn:Hu; simpl; [|by intros ?%elem_of_nil].
    destruct (truthy p') eqn:Hp; simpl; [|by intros ?%elem_of_nil].
    intros ->%list_elem_of_singleton. exists u', p'.
    unfold truthy in Hu, Hp. split_and!; [done | done | done | |].
    - intros ->. done.
    - intros ->. done. }
  exists ((if use_tls s then [StartTLS] else []) ++ login).
  split_and!.
  - by rewrite <- (assoc_L (++)).
  - intros ->. by eexists.
  - intros ->. simpl. intros Hin. by destruct (Hlogin _ Hin) as (u & p & ? & _).
  - intros c [Hin|Hin]%elem_of_app; [|right; by apply Hlogin].
    left. destruct (use_tls s);
      [by apply list_elem_of_singleton in Hin | by apply elem_of_nil in Hin].
Qed.




(** X14: with TLS switched on, a configured [send_email] issues the login
    command and the message only after a STARTTLS command that did not raise:
    if connecting or STARTTLS raises, neither the credentials nor the message
    go out. *)
Theorem starttls_precedes_credentials `{L : MailLibrary}
    (s : EmailSettings) (transport : SmtpCommand → option string)
    (subject body to_email : string) (c : SmtpCommand) :
  is_configured s = true → use_tls s = true →
  carries_secret_or_mail c = true →
  Smtp c ∈ send_email s transport subject body to_email →
  transport StartTLS = None ∧
  ∃ pre post, send_email s transport subject body to_email = pre ++ Smtp StartTLS :: post ∧
              Smtp c ∈ post.
Proof.
  intros Hconf Htls Hc.
  assert (Hnc : ∀ h p, c ≠ Connect h p) by (intros h p ->; discriminate Hc).
  assert (Hnt : c ≠ StartTLS) by (intros ->; discriminate Hc).
  unfold send_email. rewrite Hconf. simpl negb. cbv iota.
  destruct (compose_error _ _ _ _) as [cexc|].
  { by intros ?%list_elem_of_singleton. }
  cbv zeta.
  destruct (transport (Connect _ _)) as [exc|].
  { intros [H|[H|H%elem_of_nil]%elem_of_cons]%elem_of_cons; [|done..].
    injection H as ->. by destruct (Hnc _ _ eq_refl). }
  destruct (smtp_plan_front s (mkEmailMessage subject (sender s) to_email body))
    as (front & -> & Hfront & _ & _).
  destruct (Hfront Htls) as (rest & ->). simpl.
  destruct (transport StartTLS) as [exc|].
  { simpl. destruct (transport Quit);
      intros [H|[H|[H|[H|H%elem_of_nil]%elem_of_cons]%elem_of_cons]%elem_of_cons]%elem_of_cons;
      try done; injection H as ->; try done; by destruct (Hnc _ _ eq_refl). }
  destruct (smtp_session transport _) as [es r]. simpl.
  intros [H|[H|Hin]%elem_of_cons]%elem_of_cons.
  - injection H as ->. by destruct (Hnc _ _ eq_refl).
  - injection H as ->. done.
  - split; [done|]. exists [Smtp (Connect (default "" (host s)) (port s))].
    eexists. split; [done|]. done.
Qed.

Lemma starttls_precedes_credentials_witness :
  ∃ pre post,
    send_email (L := composing_library) (EmailSettings_init default_port_env) (λ _, None)
      "Successfully Registered for Chess Club" "" "new@mergington.edu" =
    pre ++ Smtp StartTLS :: post.
Proof.
  destruct (starttls_precedes_credentials (L := composing_library)
    (EmailSettings_init default_port_env)
    (λ _, None) "Successfully Registered for Chess Club" "" "new@mergington.edu"
    (SendMessage (mkEmailMessage "Successfully Registered for Chess Club"
       "Mergington High School Activities <activities@mergington.edu>"
       "new@mergington.edu" "")))
    as (_ & pre & post & Heq & _).
  - vm_compute. reflexivity.
  - vm_compute. reflexivity.
  - reflexivity.
  - vm_compute. apply elem_of_cons. right. apply elem_of_cons. right.
    apply elem_of_cons. by left.
  - exists pre, post. exact Heq.
Defined.

(** X15: whatever the settings and the transport, the only login command
    [send_email] ever issues carries the configured user name and password,
    both non-empty; with either of them missing or empty it does not log
    in. *)
Theorem login_only_with_configured_credentials `{L : MailLibrary}
    (s : EmailSettings) (transport : SmtpCommand → option string)
    (subject body to_email u p : string) :
  Smtp (Login u p) ∈ send_email s transport subject body to_email →
  username s = Some u ∧ password s = Some p ∧ u ≠ "" ∧ p ≠ "".
Proof.
  unfold send_email. destruct (is_configured s); simpl negb; cbv iota.
  2:{ by intros ?%list_elem_of_singleton. }
  destruct (compose_error _ _ _ _) as [cexc|].
  { by intros ?%list_elem_of_singleton. }
  cbv zeta.
  destruct (transport (Connect _ _)) as [exc|].
  { intros [H|[H|H%elem_of_nil]%elem_of_cons]%elem_of_cons; done. }
  set (m := mkEmailMessage subject (sender s) to_email body).
  pose proof (smtp_session_issued transport (smtp_plan s m) (Login u p)) as Hiss.
  destruct (smtp_plan_front s m) as (front & Hplan & _ & _ & Hfront).
  destruct (smtp_session transport (smtp_plan s m)) as [es r]. simpl in Hiss.
  intros [H|[Hin|Hin]%elem_of_app]%elem_of_cons; [done | |].
  - specialize (Hiss Hin). rewrite Hplan in Hiss.
    apply elem_of_app in Hiss as [Hiss|Hiss%list_elem_of_singleton]; [|done].
    destruct (Hfront _ Hiss) as [|(u' & p' & [= <- <-] & H)]; done.
  - apply elem_of_cons in Hin as [|Hin]; [done|].
    destruct (transport Quit), r;
      try (by apply list_elem_of_singleton in Hin); by apply elem_of_nil in Hin.
Qed.

Lemma login_only_with_configured_credentials_witness :
  username (EmailSettings_init
              (<["SMTP_USERNAME" := "mailer"]> (<["SMTP_PASSWORD" := "secret"]>
                 default_port_env))) = Some "mailer".
Proof.
  refine (proj1 (login_only_with_configured_credentials (L := composing_library)
    (EmailSettings_init
       (<["SMTP_USERNAME" := "mailer"]> (<["SMTP_PASSWORD" := "secret"]> default_port_env)))
    (λ _, None) "" "" "new@mergington.edu" "mailer" "secret" _)).
  vm_compute. apply elem_of_cons. right. apply elem_of_cons. right.
  apply elem_of_cons. by left.
Defined.

(** X16: the sender of the settings is empty exactly when no non-empty sender
    address is configured; so a configured notifier never sends a message
    with an empty From header: it is the address alone, or the display name
    followed by the address in angle brackets. *)
Theorem sender_empty_iff_no_address (s : EmailSettings) :
  (sender s = "" ↔ truthy_opt (from_email s) = false) ∧
  (is_configured s = true →
   ∃ fe, from_email s = Some fe ∧ fe ≠ "" ∧
         (sender s = fe ∨ sender s = from_name s +:+ " <" +:+ fe +:+ ">")).
Proof.
  assert (Hne : ∀ a b : string, a ≠ "" → a +:+ b ≠ "").
  { intros [|c a] b Ha; [done|]. simpl. discriminate. }
  split.
  - unfold sender, truthy_opt. destruct (from_email s) as [fe|]; [|done].
    unfold truthy. destruct (String.eqb_spec (from_name s) "") as [Hn|Hn]; simpl.
    + destruct (String.eqb_spec fe "") as [->|Hf]; simpl; [done|]. split; done.
    + destruct (String.eqb_spec fe "") as [->|Hf]; simpl; [done|].
      split; [|done]. intros H. by apply Hne in H.
  - unfold is_configured. rewrite !andb_true_iff. intros [_ Hfe].
    apply truthy_opt_true in Hfe as (fe & Hfe & Hne'). exists fe.
    split_and!; [done | done |]. unfold sender. rewrite Hfe.
    destruct (truthy (from_name s) && truthy fe); [by right | by left].
Qed.

Lemma sender_empty_iff_no_address_witness :
  ∃ fe, from_email (EmailSettings_init default_port_env) = Some fe ∧ fe ≠ "" ∧
        (sender (EmailSettings_init default_port_env) = fe ∨
         sender (EmailSettings_init default_port_env) =
           "Mergington High School Activities" +:+ " <" +:+ fe +:+ ">").
Proof.
  apply (proj2 (sender_empty_iff_no_address (EmailSettings_init default_port_env))).
  vm_compute. reflexivity.
Defined.


(** ** Settings read from the environment *)






